(** * FloatChat ARGO: the client application of [frontend/app.js]

    A shallow embedding of the class [FloatChatApp]: its fields, the browser
    state it reads and writes (local storage, the elements it looks up by id,
    pending [setTimeout] callbacks, alerts) and its methods, written as
    computations in a state-and-exception monad.

    Conventions.
    - A JavaScript string is a [string]; each [ascii] is one code unit, so
      the strings covered are those whose code units are below 256 (the
      domain of [btoa] and the range of [atob]).
    - Numbers are exact: an integer is a [Z], a decimal literal [m * 10^e] is
      kept as the pair [(m, e)]; binary64 rounding is not modelled.
    - A page that a render method builds from its template is kept by what
      it shows ([MainContent]). The chat transcript, where [sendChatMessage]
      interpolates the user's text into [innerHTML], is kept as the tree that
      the HTML parser builds from the markup ([HTML]). *)

From Stdlib Require Import ZArith Ascii DecimalString.
From Stdlib Require String.
From stdpp Require Import gmap strings list.

Local Open Scope Z_scope.

(** ** The built-ins of the platform that the script calls *)

Module JS.

Definition unit_code (c : ascii) : N := N_of_ascii c.

Definition in_range (lo hi n : N) : bool := ((lo <=? n) && (n <=? hi))%N.

(** [String.prototype.toLowerCase] on code units below 256: A-Z and the
    Latin-1 capitals (all of 0xC0-0xDE but the multiplication sign). *)
Definition lower_unit (c : ascii) : ascii :=
  let n := unit_code c in
  if in_range 65 90 n || (in_range 192 222 n && negb (n =? 215)%N)
  then ascii_of_N (n + 32) else c.

Fixpoint toLowerCase (s : string) : string :=
  match s with
  | EmptyString => EmptyString
  | String c r => String (lower_unit c) (toLowerCase r)
  end.

(** White space and line terminators below 256: TAB, LF, VT, FF, CR, SP,
    NBSP. *)
Definition is_white (c : ascii) : bool :=
  let n := unit_code c in in_range 9 13 n || (n =? 32)%N || (n =? 160)%N.

Fixpoint trimStart (s : string) : string :=
  match s with
  | EmptyString => EmptyString
  | String c r => if is_white c then trimStart r else s
  end.

Fixpoint trimEnd (s : string) : string :=
  match s with
  | EmptyString => EmptyString
  | String c r =>
      match trimEnd r with
      | EmptyString => if is_white c then EmptyString else String c EmptyString
      | r' => String c r'
      end
  end.

Definition trim (s : string) : string := trimEnd (trimStart s).

(** [s.includes(key)] *)
Fixpoint includes (s key : string) : bool :=
  String.prefix key s ||
  match s with
  | EmptyString => false
  | String _ r => includes r key
  end.

(** [s.split(sep)] for a separator of one code unit. *)
Fixpoint split (sep : ascii) (s : string) : list string :=
  match s with
  | EmptyString => [EmptyString]
  | String c r =>
      if Ascii.eqb c sep then EmptyString :: split sep r
      else match split sep r with
           | h :: t => String c h :: t
           | [] => [String c EmptyString]
           end
  end.

(** [String(x)] of an array element that may be missing: [undefined]
    converts to the text "undefined". *)
Definition ToString_opt (x : option string) : string :=
  match x with Some s => s | None => "undefined" end.

(** *** Base64: [btoa] and [atob] *)

Definition b64_alphabet : string :=
  "ABCDEFGHIJKLMNOPQRSTUVWXYZabcdefghijklmnopqrstuvwxyz0123456789+/".

Definition b64_char (n : N) : ascii :=
  match String.get (N.to_nat n) b64_alphabet with
  | Some c => c
  | None => "="%char
  end.

Fixpoint index_from (i : N) (c : ascii) (s : string) : option N :=
  match s with
  | EmptyString => None
  | String d r => if Ascii.eqb c d then Some i else index_from (i + 1) c r
  end.

Definition b64_value (c : ascii) : option N := index_from 0 c b64_alphabet.

Fixpoint btoa_units (l : list N) : list ascii :=
  match l with
  | [] => []
  | [a] =>
      [b64_char (a / 4); b64_char ((a mod 4) * 16); "="%char; "="%char]
  | [a; b] =>
      [b64_char (a / 4); b64_char ((a mod 4) * 16 + b / 16);
       b64_char ((b mod 16) * 4); "="%char]
  | a :: b :: c :: r =>
      b64_char (a / 4) :: b64_char ((a mod 4) * 16 + b / 16)
      :: b64_char ((b mod 16) * 4 + c / 64) :: b64_char (c mod 64)
      :: btoa_units r
  end%N.

(** [btoa(s)] of a sequence of code units: [None] is the
    InvalidCharacterError raised for a code unit above 255. *)
Definition btoa (s : list N) : option string :=
  if forallb (λ c, c <? 256)%N s
  then Some (String.string_of_list_ascii (btoa_units s))
  else None.

(** ASCII white space of the forgiving-base64 decoder: TAB, LF, FF, CR, SP. *)
Definition is_ascii_white (c : ascii) : bool :=
  let n := unit_code c in
  (n =? 9)%N || (n =? 10)%N || (n =? 12)%N || (n =? 13)%N || (n =? 32)%N.

Definition is_pad (c : ascii) : bool := Ascii.eqb c "="%char.

(** Drop one or two trailing [=] (used when the length is a multiple of 4). *)
Definition strip_padding (l : list ascii) : list ascii :=
  match rev l with
  | p :: q :: r => if is_pad p then (if is_pad q then rev r else rev (q :: r)) else l
  | [p] => if is_pad p then [] else l
  | [] => l
  end.

Fixpoint atob_values (l : list N) : list N :=
  match l with
  | a :: b :: c :: d :: r =>
      (a * 4 + b / 16) :: ((b mod 16) * 16 + c / 4) :: ((c mod 4) * 64 + d)
      :: atob_values r
  | [a; b; c] => [a * 4 + b / 16; (b mod 16) * 16 + c / 4]
  | [a; b] => [a * 4 + b / 16]
  | _ => []
  end%N.

(** [atob(data)]: [None] is the InvalidCharacterError. *)
Definition atob (data : string) : option string :=
  let d := filter (λ c, is_ascii_white c = false) (String.list_ascii_of_string data) in
  let d := if (N.of_nat (length d) mod 4 =? 0)%N then strip_padding d else d in
  if (N.of_nat (length d) mod 4 =? 1)%N then None
  else vs ← mapM b64_value d;
       Some (String.string_of_list_ascii (ascii_of_N <$> atob_values vs)).

End JS.

(** ** JSON values, [JSON.parse], [JSON.stringify] and number coercion *)

(** A sequence of UTF-16 code units: the strings inside JSON values, whose
    escapes can denote any code unit. *)
Abbreviation ustring := (list N).

Definition units (s : string) : ustring :=
  JS.unit_code <$> String.list_ascii_of_string s.

#[warnings="-register-all"] Inductive json :=
| JNull
| JBool (b : bool)
| JNum (m e : Z)          (* the number m * 10^e *)
| JStr (s : ustring)
| JArr (items : list json)
| JObj (fields : list (ustring * json)).

Module JSON.

Definition ueqb (a b : ustring) : bool := bool_decide (a = b).

(** Own-property lookup and definition on the ordered field list. *)
Fixpoint lookup_field (k : ustring) (fs : list (ustring * json)) : option json :=
  match fs with
  | [] => None
  | (k', v) :: r => if ueqb k k' then Some v else lookup_field k r
  end.

Fixpoint define_field (k : ustring) (v : json) (fs : list (ustring * json))
  : list (ustring * json) :=
  match fs with
  | [] => [(k, v)]
  | (k', v') :: r =>
      if ueqb k k' then (k', v) :: r else (k', v') :: define_field k v r
  end.

Definition is_digit (c : N) : bool := JS.in_range 48 57 c.

Definition is_json_white (c : N) : bool :=
  (c =? 9)%N || (c =? 10)%N || (c =? 13)%N || (c =? 32)%N.

Fixpoint skip_ws (l : ustring) : ustring :=
  match l with
  | c :: r => if is_json_white c then skip_ws r else l
  | [] => []
  end.

(** Reads a run of decimal digits onto the accumulator, counting them. *)
Fixpoint scan_digits (l : ustring) (acc : Z) (n : nat) : Z * nat * ustring :=
  match l with
  | c :: r =>
      if is_digit c then scan_digits r (acc * 10 + Z.of_N (c - 48)) (S n)
      else (acc, n, l)
  | [] => (acc, n, [])
  end.

(** An optional exponent part [e|E (+|-)? digits]; [None] when an exponent
    mark is not followed by digits. *)
Definition scan_exponent (l : ustring) : option (Z * ustring) :=
  match l with
  | c :: r =>
      if (c =? 101)%N || (c =? 69)%N then
        let '(neg, r1) :=
          match r with
          | 45%N :: r1 => (true, r1)
          | 43%N :: r1 => (false, r1)
          | _ => (false, r)
          end in
        let '(x, k, r2) := scan_digits r1 0 0 in
        if bool_decide (k = 0%nat) then None
        else Some (if neg then - x else x, r2)
      else Some (0, l)
  | [] => Some (0, [])
  end.

(** An optional fraction [. digits] after the integer part [i]. With
    [strict] (JSON) the point needs a digit after it. *)
Definition scan_fraction (strict : bool) (i : Z) (l : ustring)
  : option (Z * Z * nat * ustring) :=
  match l with
  | 46%N :: r =>
      let '(m, k, r1) := scan_digits r i 0 in
      if strict && bool_decide (k = 0%nat) then None
      else Some (m, - Z.of_nat k, k, r1)
  | _ => Some (i, 0, 0%nat, l)
  end.

(** The JSON number grammar: [-? (0 | [1-9] digits) frac? exp?]. *)
Definition parse_number (l : ustring) : option (json * ustring) :=
  let '(neg, l1) :=
    match l with 45%N :: r => (true, r) | _ => (false, l) end in
  ir ← match l1 with
       | 48%N :: r => Some (0, r)
       | c :: _ =>
           if JS.in_range 49 57 c
           then let '(i, _, r) := scan_digits l1 0 0 in Some (i, r)
           else None
       | [] => None
       end;
  '(m, e1, _, r1) ← scan_fraction true ir.1 ir.2;
  '(e2, r2) ← scan_exponent r1;
  Some (JNum (if neg then - m else m) (e1 + e2), r2).

Definition hex_value (c : N) : option N :=
  if is_digit c then Some (c - 48)%N
  else if JS.in_range 65 70 c then Some (c - 55)%N
  else if JS.in_range 97 102 c then Some (c - 87)%N
  else None.

Definition hex4 (a b c d : N) : option N :=
  x ← hex_value a; y ← hex_value b; z ← hex_value c; w ← hex_value d;
  Some (((x * 16 + y) * 16 + z) * 16 + w)%N.

Definition unescape (c : N) : option N :=
  match c with
  | 34 => Some 34 | 92 => Some 92 | 47 => Some 47
  | 98 => Some 8 | 102 => Some 12 | 110 => Some 10
  | 114 => Some 13 | 116 => Some 9
  | _ => None
  end%N.

(** The characters of a string literal after its opening quote, up to and
    including the closing quote. *)
Fixpoint parse_chars (l : ustring) : option (ustring * ustring) :=
  match l with
  | [] => None
  | 34%N :: r => Some ([], r)
  | 92%N :: r =>
      match r with
      | 117%N :: a :: b :: c :: d :: r' =>
          h ← hex4 a b c d; sr ← parse_chars r'; Some (h :: sr.1, sr.2)
      | x :: r' =>
          h ← unescape x; sr ← parse_chars r'; Some (h :: sr.1, sr.2)
      | [] => None
      end
  | c :: r =>
      if (c <? 32)%N then None
      else sr ← parse_chars r; Some (c :: sr.1, sr.2)
  end.

Fixpoint strip_prefix (p l : ustring) : option ustring :=
  match p, l with
  | [], _ => Some l
  | a :: p', b :: l' => if (a =? b)%N then strip_prefix p' l' else None
  | _ :: _, [] => None
  end.

Definition parse_literal (l : ustring) : option (json * ustring) :=
  match strip_prefix (units "true") l with
  | Some r => Some (JBool true, r)
  | None =>
  match strip_prefix (units "false") l with
  | Some r => Some (JBool false, r)
  | None =>
  match strip_prefix (units "null") l with
  | Some r => Some (JNull, r)
  | None => parse_number l
  end end end.

(** One value, with the white space before it. The fuel bounds the number
    of nested and sequenced calls; [parse] below gives enough of it. *)
Fixpoint parse_value (fuel : nat) (l : ustring) : option (json * ustring) :=
  match fuel with
  | O => None
  | S fuel =>
      match skip_ws l with
      | 123%N :: r =>
          match skip_ws r with
          | 125%N :: r' => Some (JObj [], r')
          | r' => parse_members fuel r' []
          end
      | 91%N :: r =>
          match skip_ws r with
          | 93%N :: r' => Some (JArr [], r')
          | r' => parse_elements fuel r' []
          end
      | 34%N :: r => sr ← parse_chars r; Some (JStr sr.1, sr.2)
      | l' => parse_literal l'
      end
  end
with parse_elements (fuel : nat) (l : ustring) (acc : list json)
  : option (json * ustring) :=
  match fuel with
  | O => None
  | S fuel =>
      vr ← parse_value fuel l;
      match skip_ws vr.2 with
      | 44%N :: r => parse_elements fuel r (vr.1 :: acc)
      | 93%N :: r => Some (JArr (rev (vr.1 :: acc)), r)
      | _ => None
      end
  end
with parse_members (fuel : nat) (l : ustring) (acc : list (ustring * json))
  : option (json * ustring) :=
  match fuel with
  | O => None
  | S fuel =>
      match skip_ws l with
      | 34%N :: r =>
          kr ← parse_chars r;
          match skip_ws kr.2 with
          | 58%N :: r1 =>
              vr ← parse_value fuel r1;
              let acc' := define_field kr.1 vr.1 acc in
              match skip_ws vr.2 with
              | 44%N :: r2 => parse_members fuel r2 acc'
              | 125%N :: r2 => Some (JObj acc', r2)
              | _ => None
              end
          | _ => None
          end
      | _ => None
      end
  end.

(** *** Printing *)

Definition digits (n : Z) : ustring :=
  units (NilZero.string_of_uint (N.to_uint (Z.to_N n))).

Fixpoint drop_zeros (l : ustring) (e : Z) : ustring * Z :=
  match l with
  | 48%N :: r => drop_zeros r (e + 1)
  | _ => (l, e)
  end.

Definition zeros (n : Z) : ustring := replicate (Z.to_nat n) 48%N.

(** [Number::toString] of the non-zero decimal [m * 10^e], [0 < m]: with
    [k] significant digits and the decimal point after the [n]-th of them,
    positional notation for [-6 < n <= 21] and exponent notation outside. *)
Definition positive_to_string (m e : Z) : ustring :=
  let '(rs, e) := drop_zeros (rev (digits m)) e in
  let s := rev rs in
  let k := Z.of_nat (length s) in
  let n := k + e in
  if (k <=? n) && (n <=? 21) then s ++ zeros (n - k)
  else if (0 <? n) && (n <=? 21)
  then take (Z.to_nat n) s ++ [46%N] ++ drop (Z.to_nat n) s
  else if (-6 <? n) && (n <=? 0) then [48; 46]%N ++ zeros (- n) ++ s
  else
    let x := n - 1 in
    let mark := 101%N :: (if x <? 0 then 45%N else 43%N) :: digits (Z.abs x) in
    match s with
    | [d] => d :: mark
    | d :: r => d :: 46%N :: r ++ mark
    | [] => []
    end.

Definition number_to_string (m e : Z) : ustring :=
  if m =? 0 then [48%N]
  else if m <? 0 then 45%N :: positive_to_string (- m) e
  else positive_to_string m e.

Definition hex_digit (n : N) : N := (if n <? 10 then 48 + n else 87 + n)%N.

Definition u_escape (c : N) : ustring :=
  [92; 117; hex_digit (c / 4096); hex_digit (c / 256 mod 16);
   hex_digit (c / 16 mod 16); hex_digit (c mod 16)]%N.

Definition escape_unit (c : N) : ustring :=
  match c with
  | 8 => [92; 98] | 9 => [92; 116] | 10 => [92; 110] | 12 => [92; 102]
  | 13 => [92; 114] | 34 => [92; 34] | 92 => [92; 92]
  | _ => if (c <? 32) || JS.in_range 56320 57343 c then u_escape c else [c]
  end%N.

(** [QuoteJSONString] without the enclosing quotes: a surrogate pair is
    kept, a lone surrogate is escaped. *)
Fixpoint quote_units (l : ustring) : ustring :=
  match l with
  | [] => []
  | c :: r =>
      if JS.in_range 55296 56319 c then
        match r with
        | d :: r' =>
            if JS.in_range 56320 57343 d then c :: d :: quote_units r'
            else u_escape c ++ quote_units r
        | [] => u_escape c
        end
      else escape_unit c ++ quote_units r
  end.

Definition quote (s : ustring) : ustring := [34%N] ++ quote_units s ++ [34%N].

Fixpoint join (sep : ustring) (parts : list ustring) : ustring :=
  match parts with
  | [] => []
  | [p] => p
  | p :: r => p ++ sep ++ join sep r
  end.

(** [JSON.stringify(v)] with no replacer and no indentation. The fields of
    an object are printed in the order of its list (the objects the script
    prints have no integer-like keys, which would come first). *)
Fixpoint stringify (v : json) : ustring :=
  match v with
  | JNull => units "null"
  | JBool b => units (if b then "true" else "false")
  | JNum m e => number_to_string m e
  | JStr s => quote s
  | JArr items =>
      [91%N] ++ join [44%N] ((fix each (l : list json) : list ustring :=
                               match l with
                               | [] => []
                               | x :: r => stringify x :: each r
                               end) items) ++ [93%N]
  | JObj fields =>
      [123%N] ++ join [44%N]
        ((fix each (l : list (ustring * json)) : list ustring :=
            match l with
            | [] => []
            | (k, x) :: r => (quote k ++ [58%N] ++ stringify x) :: each r
            end) fields) ++ [125%N]
  end.

(** *** Coercion to a number, as [>] applies it to its left operand *)

Inductive jsnum :=
| NaN
| Infinity (negative : bool)
| Finite (m e : Z).       (* m * 10^e *)

(** [ToString] of a value; inside an array [null] prints as nothing. *)
Fixpoint ToString (v : json) : ustring :=
  match v with
  | JNull => units "null"
  | JBool b => units (if b then "true" else "false")
  | JNum m e => number_to_string m e
  | JStr s => s
  | JArr items =>
      join [44%N] ((fix each (l : list json) : list ustring :=
                      match l with
                      | [] => []
                      | JNull :: r => [] :: each r
                      | x :: r => ToString x :: each r
                      end) items)
  | JObj _ => units "[object Object]"
  end.

(** White space and line terminators of [StringToNumber] and [trim]. *)
Definition is_str_white (c : N) : bool :=
  JS.in_range 9 13 c || (c =? 32)%N || (c =? 160)%N || (c =? 5760)%N
  || JS.in_range 8192 8202 c || (c =? 8232)%N || (c =? 8233)%N
  || (c =? 8239)%N || (c =? 8287)%N || (c =? 12288)%N || (c =? 65279)%N.

Fixpoint trim_start (l : ustring) : ustring :=
  match l with
  | c :: r => if is_str_white c then trim_start r else l
  | [] => []
  end.

Definition trim_units (l : ustring) : ustring :=
  rev (trim_start (rev (trim_start l))).

(** Digits in the given radix, most significant first. *)
Fixpoint radix_value (radix : N) (l : ustring) (acc : N) : option N :=
  match l with
  | [] => Some acc
  | c :: r =>
      d ← hex_value c;
      if (d <? radix)%N then radix_value radix r (acc * radix + d) else None
  end.

Definition radix_literal (radix : N) (l : ustring) : jsnum :=
  match l with
  | [] => NaN
  | _ => match radix_value radix l 0 with
         | Some n => Finite (Z.of_N n) 0
         | None => NaN
         end
  end.

(** [StrDecimalLiteral] after its sign: [Infinity], [digits . digits? exp?],
    [. digits exp?] or [digits exp?]. *)
Definition decimal_literal (neg : bool) (l : ustring) : jsnum :=
  if ueqb l (units "Infinity") then Infinity neg
  else
    let '(i, k1, r) := scan_digits l 0 0 in
    match scan_fraction false i r with
    | Some (m, e1, k2, r1) =>
        if bool_decide (k1 + k2 = 0)%nat then NaN
        else match scan_exponent r1 with
             | Some (e2, []) => Finite (if neg then - m else m) (e1 + e2)
             | _ => NaN
             end
    | None => NaN
    end.

Definition StringToNumber (s : ustring) : jsnum :=
  match trim_units s with
  | [] => Finite 0 0
  | 48%N :: 120%N :: r | 48%N :: 88%N :: r => radix_literal 16 r
  | 48%N :: 111%N :: r | 48%N :: 79%N :: r => radix_literal 8 r
  | 48%N :: 98%N :: r | 48%N :: 66%N :: r => radix_literal 2 r
  | 45%N :: r => decimal_literal true r
  | 43%N :: r => decimal_literal false r
  | t => decimal_literal false t
  end.

(** [ToNumber] of a property value; [None] is [undefined]. *)
Definition ToNumber (v : option json) : jsnum :=
  match v with
  | None => NaN
  | Some JNull => Finite 0 0
  | Some (JBool b) => Finite (if b then 1 else 0) 0
  | Some (JNum m e) => Finite m e
  | Some (JStr s) => StringToNumber s
  | Some x => StringToNumber (ToString x)
  end.

(** [x > ms / 1000] for an integer number of milliseconds [ms]. *)
Definition gt_seconds (x : jsnum) (ms : Z) : bool :=
  match x with
  | NaN => false
  | Infinity neg => negb neg
  | Finite m e =>
      if 0 <=? e + 3 then ms <? m * 10 ^ (e + 3)
      else ms * 10 ^ (- (e + 3)) <? m
  end.

(** [JSON.parse(text)]: [None] is the SyntaxError. *)
Definition parse (text : string) : option json :=
  let l := units text in
  vr ← parse_value (2 * length l + 2) l;
  match skip_ws vr.2 with
  | [] => Some vr.1
  | _ => None
  end.

End JSON.

(** ** HTML: what [innerHTML] does with the markup of the chat transcript *)

(** The getter of [innerHTML] is the fragment serialization of the
    element's children, the setter replaces them by the result of the
    fragment parser, run in the context of the element (a [div], so the
    tree builder starts in the in-body mode). The model covers the part of
    HTML that the transcript is written in: text, the character references
    the serializer writes, and [div] and [p] elements that have no attribute
    or the one attribute [class], double-quoted. Of anything else - other
    elements and attributes, comments, other character references, NUL,
    carriage returns - the parser says nothing and returns [None]. *)
Module HTML.

Local Open Scope N_scope.

Inductive Tag := Div | P.

#[global] Instance Tag_eq_dec : EqDecision Tag.
Proof. solve_decision. Defined.

#[warnings="-register-all"] Inductive Node :=
| Text (data : ustring)
| Element (tag : Tag) (class : option ustring) (children : list Node).

Definition tag_name (t : Tag) : ustring :=
  match t with Div => units "div" | P => units "p" end.

(** *** Serialization *)

(** Escaping a string, in the attribute mode or not. *)
Definition escape_unit (attribute : bool) (c : N) : ustring :=
  if c =? 38 then units "&amp;"
  else if c =? 160 then units "&nbsp;"
  else if c =? 60 then units "&lt;"
  else if c =? 62 then units "&gt;"
  else if attribute && (c =? 34) then units "&quot;"
  else [c].

Definition escape (attribute : bool) (d : ustring) : ustring :=
  concat (escape_unit attribute <$> d).

Definition start_tag (t : Tag) (class : option ustring) : ustring :=
  [60] ++ tag_name t ++
  match class with
  | Some v => units " class=" ++ [34] ++ escape true v ++ [34]
  | None => []
  end ++ [62].

Definition end_tag (t : Tag) : ustring := [60; 47] ++ tag_name t ++ [62].

Fixpoint serialize_node (n : Node) : ustring :=
  match n with
  | Text d => escape false d
  | Element t c kids =>
      start_tag t c ++ concat (serialize_node <$> kids) ++ end_tag t
  end.

Definition serialize (children : list Node) : ustring :=
  concat (serialize_node <$> children).

(** *** Tokenization *)

Inductive Token :=
| Character (c : N)
| StartTag (t : Tag) (class : option ustring)
| EndTag (t : Tag).

(** The states of the tokenizer that the covered markup passes through. *)
Inductive TState :=
| Data
| TagOpen                                         (* after < *)
| EndTagOpen                                      (* after </ *)
| TagName (closing : bool) (name : ustring)
| BeforeAttributeName (t : Tag)
| AttributeName (t : Tag) (name : ustring)
| BeforeAttributeValue (t : Tag)                  (* after class= *)
| AttributeValue (t : Tag) (value : ustring)      (* inside the double quotes *)
| AfterAttributeValue (t : Tag) (value : ustring)
| CharacterReference                              (* after & *)
| NamedReference (name : ustring).

Definition is_space (c : N) : bool :=
  (c =? 9) || (c =? 10) || (c =? 12) || (c =? 32).
Definition is_upper (c : N) : bool := (65 <=? c) && (c <=? 90).
Definition is_alpha (c : N) : bool := is_upper c || ((97 <=? c) && (c <=? 122)).
Definition is_digit (c : N) : bool := (48 <=? c) && (c <=? 57).
Definition lower (c : N) : N := if is_upper c then c + 32 else c.

Definition tag_of (name : ustring) : option Tag :=
  if decide (name = units "div") then Some Div
  else if decide (name = units "p") then Some P
  else None.

(** The named references covered: those the serializer writes. *)
Definition reference (name : ustring) : option N :=
  if decide (name = units "amp") then Some 38
  else if decide (name = units "lt") then Some 60
  else if decide (name = units "gt") then Some 62
  else if decide (name = units "nbsp") then Some 160
  else if decide (name = units "quot") then Some 34
  else None.

(** The data state on a code unit that is neither NUL nor CR. *)
Definition data (c : N) : TState * list Token :=
  if c =? 38 then (CharacterReference, [])
  else if c =? 60 then (TagOpen, [])
  else (Data, [Character c]).

(** One code unit consumed: the next state and the tokens emitted. A [<]
    or [&] that opens nothing is emitted as text and the code unit after
    it is read again in the data state. *)
Definition step (st : TState) (c : N) : option (TState * list Token) :=
  if (c =? 0) || (c =? 13) then None else
  match st with
  | Data => Some (data c)
  | TagOpen =>
      if c =? 47 then Some (EndTagOpen, [])
      else if is_alpha c then Some (TagName false [lower c], [])
      else if (c =? 33) || (c =? 63) then None
      else Some ((data c).1, Character 60 :: (data c).2)
  | EndTagOpen =>
      if is_alpha c then Some (TagName true [lower c], []) else None
  | TagName closing name =>
      if c =? 62 then
        t ← tag_of name;
        Some (Data, [if closing then EndTag t else StartTag t None])
      else if is_space c then
        if closing then None
        else t ← tag_of name; Some (BeforeAttributeName t, [])
      else if c =? 47 then None
      else Some (TagName closing (name ++ [lower c]), [])
  | BeforeAttributeName t =>
      if is_space c then Some (BeforeAttributeName t, [])
      else if c =? 62 then Some (Data, [StartTag t None])
      else if (c =? 47) || (c =? 61) || (c =? 34) || (c =? 39) || (c =? 60)
      then None
      else Some (AttributeName t [lower c], [])
  | AttributeName t name =>
      if c =? 61 then
        if decide (name = units "class") then Some (BeforeAttributeValue t, [])
        else None
      else if is_space c || (c =? 47) || (c =? 62) || (c =? 34) || (c =? 39)
              || (c =? 60)
      then None
      else Some (AttributeName t (name ++ [lower c]), [])
  | BeforeAttributeValue t =>
      if is_space c then Some (BeforeAttributeValue t, [])
      else if c =? 34 then Some (AttributeValue t [], [])
      else None
  | AttributeValue t v =>
      if c =? 34 then Some (AfterAttributeValue t v, [])
      else if (c =? 38) || (c =? 60) || (c =? 62) || (c =? 160) then None
      else Some (AttributeValue t (v ++ [c]), [])
  | AfterAttributeValue t v =>
      if c =? 62 then Some (Data, [StartTag t (Some v)]) else None
  | CharacterReference =>
      if is_alpha c || is_digit c then Some (NamedReference [c], [])
      else if c =? 35 then None
      else Some ((data c).1, Character 38 :: (data c).2)
  | NamedReference name =>
      if c =? 59 then r ← reference name; Some (Data, [Character r])
      else if is_alpha c || is_digit c then Some (NamedReference (name ++ [c]), [])
      else None
  end.

(** The end of the input. *)
Definition finish (st : TState) : option (list Token) :=
  match st with
  | Data => Some []
  | TagOpen => Some [Character 60]
  | CharacterReference => Some [Character 38]
  | _ => None
  end.

Fixpoint tokens (st : TState) (input : ustring) : option (list Token) :=
  match input with
  | [] => finish st
  | c :: r =>
      match step st c with
      | Some (st', out) => (out ++.) <$> tokens st' r
      | None => None
      end
  end.

(** *** Tree construction *)

(** An element on the stack of open elements, with the children it has so
    far, the last one first. *)
Record Open := { tag : Tag; class : option ustring; content : list Node }.

(** The stack of open elements, the current node first, above the root
    that stands for the context element, and the children of that root. *)
Abbreviation Builder := (list Open * list Node)%type.

Definition insert_character (c : N) (kids : list Node) : list Node :=
  match kids with
  | Text d :: k => Text (d ++ [c]) :: k
  | k => Text [c] :: k
  end.

(** A change to the children of the current node. *)
Definition in_current (f : list Node → list Node) (b : Builder) : Builder :=
  match b with
  | (o :: s, root) =>
      ({| tag := tag o; class := class o; content := f (content o) |} :: s, root)
  | ([], root) => ([], f root)
  end.

Definition closed (o : Open) (last : list Node) : Node :=
  Element (tag o) (class o) (rev (last ++ content o)).

(** Elements are popped until one named [t] has been popped; [last] is the
    element popped just before, a child of the one that is popped next. *)
Fixpoint pop_until (t : Tag) (last : list Node) (s : list Open) (root : list Node)
  : Builder :=
  match s with
  | [] => ([], last ++ root)
  | o :: s' =>
      if decide (tag o = t) then in_current (cons (closed o last)) (s', root)
      else pop_until t [closed o last] s' root
  end.

(** [t] is in scope, and in button scope: the walk down the stack stops at
    the root, no covered element ends it before. *)
Definition in_scope (t : Tag) (s : list Open) : bool :=
  existsb (λ o, bool_decide (tag o = t)) s.

(** The in-body insertion mode. A start tag of [div] or [p] closes a [p]
    that is in button scope; an end tag without its element in scope is
    dropped when it is [</div>] and makes an empty [p] when it is [</p>]. *)
Definition process (b : Builder) (token : Token) : Builder :=
  match token with
  | Character c => in_current (insert_character c) b
  | StartTag t c =>
      let b' := if in_scope P b.1 then pop_until P [] b.1 b.2 else b in
      ({| tag := t; class := c; content := [] |} :: b'.1, b'.2)
  | EndTag Div =>
      if in_scope Div b.1 then pop_until Div [] b.1 b.2 else b
  | EndTag P =>
      if in_scope P b.1 then pop_until P [] b.1 b.2
      else in_current (cons (Element P None [])) b
  end.

(** At the end of the input the elements still open are complete. *)
Fixpoint close_all (last : list Node) (s : list Open) (root : list Node)
  : list Node :=
  match s with
  | [] => rev (last ++ root)
  | o :: s' => close_all [closed o last] s' root
  end.

Definition build (b : Builder) (toks : list Token) : list Node :=
  let b' := foldl process b toks in close_all [] b'.1 b'.2.

(** The children that the fragment parser gives for [markup]. *)
Definition parse (markup : ustring) : option (list Node) :=
  build ([], []) <$> tokens Data markup.

(** [element.innerHTML += markup] on the children of the element. *)
Definition append (markup : ustring) (children : list Node) : option (list Node) :=
  parse (serialize children ++ markup).

(** *** Reading the tree *)

Definition is_text (n : Node) : bool :=
  match n with Text _ => true | Element _ _ _ => false end.

(** The element children. *)
Fixpoint elements (children : list Node) : list Node :=
  match children with
  | [] => []
  | Text _ :: r => elements r
  | e :: r => e :: elements r
  end.



(** *** The trees and texts that [innerHTML] reads back as they are *)

Definition clean (d : ustring) : bool :=
  forallb (λ c, negb ((c =? 0) || (c =? 13))) d.

Definition safe_value (v : ustring) : bool :=
  forallb (λ c, negb ((c =? 0) || (c =? 13) || (c =? 34) || (c =? 38)
                      || (c =? 60) || (c =? 62) || (c =? 160))) v.

(** No text node follows a text node. *)
Fixpoint separated (l : list Node) : bool :=
  match l with
  | [] => true
  | n :: r =>
      negb (is_text n && match r with m :: _ => is_text m | [] => false end)
      && separated r
  end.

(** A tree as the parser builds it: text nodes are not empty and not
    adjacent, a [p] holds text only. *)
Fixpoint well_formed_node (n : Node) : bool :=
  match n with
  | Text d => negb (bool_decide (d = [])) && clean d
  | Element t c kids =>
      match c with Some v => safe_value v | None => true end
      && forallb well_formed_node kids && separated kids
      && match t with P => forallb is_text kids | Div => true end
  end.

Definition well_formed (children : list Node) : bool :=
  forallb well_formed_node children && separated children.

(** [<] followed by what opens a tag, a comment or a declaration, [&]
    followed by what opens a character reference. *)
Definition opens_markup (c next : N) : bool :=
  ((c =? 60) && (is_alpha next || (next =? 47) || (next =? 33) || (next =? 63)))
  || ((c =? 38) && (is_alpha next || is_digit next || (next =? 35))).

(** Text without markup in it: interpolated into an element, it is read as
    the text it is. *)
Fixpoint inert (d : ustring) : bool :=
  match d with
  | [] => true
  | c :: r =>
      negb ((c =? 0) || (c =? 13))
      && match r with next :: _ => negb (opens_markup c next) | [] => true end
      && inert r
  end.

(** The children [t] followed by the nodes [new]; text that follows text
    is one node. *)
Fixpoint join (t new : list Node) : list Node :=
  match t with
  | [] => new
  | n :: t' =>
      match t', n, new with
      | [], Text a, Text b :: new' => Text (a ++ b) :: new'
      | _, _, _ => n :: join t' new
      end
  end.

End HTML.

(** ** The application state *)

(** A decimal constant of the source, [m * 10^e] as the pair [(m, e)]. *)
Abbreviation decimal := (Z * Z)%type.

Record ArgoFloat := {
  float_id : string;
  lat : decimal;
  lng : decimal;
  status : string;
  temp : decimal;
  salinity : decimal
}.

(** An entry of [chatHistory]: [{ user, bot, timestamp }]. *)
Record ChatTurn := { user : string; bot : string; timestamp : Z }.

(** A value of the [demoUsers] table. *)
Record Account := { password : string; role : string; name : string }.

(** *** The page *)

Inductive Status :=
| UpdatedSuccessfully      (* green: Chatbot database updated successfully! *)
| InvalidJSON              (* red: Invalid JSON format *)
| SelectFiles              (* red: Please select NetCDF files *)
| Converting               (* blue: Converting files... *)
| ConversionCompleted.     (* green: Conversion completed! *)

(** The children of an element that the script writes to after it has
    looked it up: the transcript as a tree, the two elements of the
    converter by the template they were given. *)
Inductive Content :=
| Children (tree : list HTML.Node)
| StatusDiv (st : Status)
| ResultsBlock (rows : list (string * string))   (* file name, converted name *)
| Unread.                    (* markup that [HTML.parse] does not cover *)

(** A circle marker with its popup. *)
Record Marker := {
  position : decimal * decimal;
  color : string;
  popup : ArgoFloat
}.

(** The elements that a [setTimeout] callback keeps a reference to live in
    a store and are named by their index in it: such an element is still
    written to after it left the document. *)
Abbreviation ref := nat.

Record LoginForm := { username_value : string; password_value : string }.

Inductive UserContent :=
| ChatInterface (chatMessages : ref) (chatInput : string)
| ArgoMap (count : nat) (map : option (list Marker)) (floatList : list ArgoFloat)
| OceanMap
| UserProfile (p_name p_username p_role : option json) (sessions : nat).

Inductive AdminContent :=
| ChatbotDB (trainingData : string) (updateStatus : option Status)
| NCConverter (ncFiles : list string) (conversionStatus conversionResults : ref)
| SystemStatus (floats sessions : nat)
| UserManagement.

(** The content of [#main-content]; [#user-content] and [#admin-content]
    start empty. *)
Inductive MainContent :=
| Blank
| HomePage
| AboutPage
| ContactPage
| UserDashboard (content : option UserContent)
| AdminDashboard (content : option AdminContent).

Inductive Callback :=
| AppendBotReply (messagesContainer : ref) (response : string)
| InitializeMap
| FinishConversion (statusDiv resultsDiv : ref) (files : list string).

(** A pending [setTimeout]: it may run once the clock has reached [due]. *)
Record Timer := { due : Z; callback : Callback }.

Record State := {
  (* fields of the FloatChatApp object *)
  currentUser : option json;       (* None is null *)
  currentPage : string;
  chatHistory : list ChatTurn;
  argoFloats : list ArgoFloat;
  (* the browser *)
  localStorage : gmap string string;
  clock : Z;                       (* Date.now(), in milliseconds *)
  mainContent : MainContent;
  loginBtnHidden : bool;
  logoutBtnHidden : bool;
  authModalHidden : bool;
  modalBody : option LoginForm;
  nodes : list Content;
  timers : list Timer;
  alerts : list string
}.

Definition set_currentUser (v : option json) (s : State) : State :=
  {| currentUser := v; currentPage := currentPage s;
     chatHistory := chatHistory s; argoFloats := argoFloats s;
     localStorage := localStorage s; clock := clock s;
     mainContent := mainContent s; loginBtnHidden := loginBtnHidden s;
     logoutBtnHidden := logoutBtnHidden s;
     authModalHidden := authModalHidden s; modalBody := modalBody s;
     nodes := nodes s; timers := timers s; alerts := alerts s |}.

Definition set_currentPage (v : string) (s : State) : State :=
  {| currentUser := currentUser s; currentPage := v;
     chatHistory := chatHistory s; argoFloats := argoFloats s;
     localStorage := localStorage s; clock := clock s;
     mainContent := mainContent s; loginBtnHidden := loginBtnHidden s;
     logoutBtnHidden := logoutBtnHidden s;
     authModalHidden := authModalHidden s; modalBody := modalBody s;
     nodes := nodes s; timers := timers s; alerts := alerts s |}.

Definition set_chatHistory (v : list ChatTurn) (s : State) : State :=
  {| currentUser := currentUser s; currentPage := currentPage s;
     chatHistory := v; argoFloats := argoFloats s;
     localStorage := localStorage s; clock := clock s;
     mainContent := mainContent s; loginBtnHidden := loginBtnHidden s;
     logoutBtnHidden := logoutBtnHidden s;
     authModalHidden := authModalHidden s; modalBody := modalBody s;
     nodes := nodes s; timers := timers s; alerts := alerts s |}.

Definition set_localStorage (v : gmap string string) (s : State) : State :=
  {| currentUser := currentUser s; currentPage := currentPage s;
     chatHistory := chatHistory s; argoFloats := argoFloats s;
     localStorage := v; clock := clock s; mainContent := mainContent s;
     loginBtnHidden := loginBtnHidden s;
     logoutBtnHidden := logoutBtnHidden s;
     authModalHidden := authModalHidden s; modalBody := modalBody s;
     nodes := nodes s; timers := timers s; alerts := alerts s |}.

Definition set_clock (v : Z) (s : State) : State :=
  {| currentUser := currentUser s; currentPage := currentPage s;
     chatHistory := chatHistory s; argoFloats := argoFloats s;
     localStorage := localStorage s; clock := v;
     mainContent := mainContent s; loginBtnHidden := loginBtnHidden s;
     logoutBtnHidden := logoutBtnHidden s;
     authModalHidden := authModalHidden s; modalBody := modalBody s;
     nodes := nodes s; timers := timers s; alerts := alerts s |}.

Definition set_mainContent (v : MainContent) (s : State) : State :=
  {| currentUser := currentUser s; currentPage := currentPage s;
     chatHistory := chatHistory s; argoFloats := argoFloats s;
     localStorage := localStorage s; clock := clock s; mainContent := v;
     loginBtnHidden := loginBtnHidden s;
     logoutBtnHidden := logoutBtnHidden s;
     authModalHidden := authModalHidden s; modalBody := modalBody s;
     nodes := nodes s; timers := timers s; alerts := alerts s |}.

Definition set_loginBtnHidden (v : bool) (s : State) : State :=
  {| currentUser := currentUser s; currentPage := currentPage s;
     chatHistory := chatHistory s; argoFloats := argoFloats s;
     localStorage := localStorage s; clock := clock s;
     mainContent := mainContent s; loginBtnHidden := v;
     logoutBtnHidden := logoutBtnHidden s;
     authModalHidden := authModalHidden s; modalBody := modalBody s;
     nodes := nodes s; timers := timers s; alerts := alerts s |}.

Definition set_logoutBtnHidden (v : bool) (s : State) : State :=
  {| currentUser := currentUser s; currentPage := currentPage s;
     chatHistory := chatHistory s; argoFloats := argoFloats s;
     localStorage := localStorage s; clock := clock s;
     mainContent := mainContent s; loginBtnHidden := loginBtnHidden s;
     logoutBtnHidden := v; authModalHidden := authModalHidden s;
     modalBody := modalBody s; nodes := nodes s; timers := timers s;
     alerts := alerts s |}.

Definition set_authModalHidden (v : bool) (s : State) : State :=
  {| currentUser := currentUser s; currentPage := currentPage s;
     chatHistory := chatHistory s; argoFloats := argoFloats s;
     localStorage := localStorage s; clock := clock s;
     mainContent := mainContent s; loginBtnHidden := loginBtnHidden s;
     logoutBtnHidden := logoutBtnHidden s; authModalHidden := v;
     modalBody := modalBody s; nodes := nodes s; timers := timers s;
     alerts := alerts s |}.

Definition set_modalBody (v : option LoginForm) (s : State) : State :=
  {| currentUser := currentUser s; currentPage := currentPage s;
     chatHistory := chatHistory s; argoFloats := argoFloats s;
     localStorage := localStorage s; clock := clock s;
     mainContent := mainContent s; loginBtnHidden := loginBtnHidden s;
     logoutBtnHidden := logoutBtnHidden s;
     authModalHidden := authModalHidden s; modalBody := v; nodes := nodes s;
     timers := timers s; alerts := alerts s |}.

Definition set_nodes (v : list Content) (s : State) : State :=
  {| currentUser := currentUser s; currentPage := currentPage s;
     chatHistory := chatHistory s; argoFloats := argoFloats s;
     localStorage := localStorage s; clock := clock s;
     mainContent := mainContent s; loginBtnHidden := loginBtnHidden s;
     logoutBtnHidden := logoutBtnHidden s;
     authModalHidden := authModalHidden s; modalBody := modalBody s;
     nodes := v; timers := timers s; alerts := alerts s |}.

Definition set_timers (v : list Timer) (s : State) : State :=
  {| currentUser := currentUser s; currentPage := currentPage s;
     chatHistory := chatHistory s; argoFloats := argoFloats s;
     localStorage := localStorage s; clock := clock s;
     mainContent := mainContent s; loginBtnHidden := loginBtnHidden s;
     logoutBtnHidden := logoutBtnHidden s;
     authModalHidden := authModalHidden s; modalBody := modalBody s;
     nodes := nodes s; timers := v; alerts := alerts s |}.

Definition set_alerts (v : list string) (s : State) : State :=
  {| currentUser := currentUser s; currentPage := currentPage s;
     chatHistory := chatHistory s; argoFloats := argoFloats s;
     localStorage := localStorage s; clock := clock s;
     mainContent := mainContent s; loginBtnHidden := loginBtnHidden s;
     logoutBtnHidden := logoutBtnHidden s;
     authModalHidden := authModalHidden s; modalBody := modalBody s;
     nodes := nodes s; timers := timers s; alerts := v |}.

(** ** Computations: state with exceptions *)

Inductive Error := TypeError | SyntaxError | InvalidCharacterError | LeafletError.

Inductive outcome (A : Type) :=
| Return (a : A)
| Throw (e : Error).
Arguments Return {A} a.
Arguments Throw {A} e.

(** A method body: it runs on a state and ends normally or by an exception;
    the writes made before a throw stay. *)
Definition M (A : Type) : Type := State → outcome A * State.

#[global] Instance M_ret : MRet M := λ A a s, (Return a, s).

#[global] Instance M_bind : MBind M := λ A B f m s,
  match m s with
  | (Return a, s') => f a s'
  | (Throw e, s') => (Throw e, s')
  end.

Definition get : M State := λ s, (Return s, s).
Definition modify (f : State → State) : M unit := λ s, (Return tt, f s).
Definition throw {A} (e : Error) : M A := λ s, (Throw e, s).

(** [try { body } catch (e) { handler }] *)
Definition try_catch (body : M unit) (handler : M unit) : M unit := λ s,
  match body s with
  | (Return tt, s') => (Return tt, s')
  | (Throw _, s') => handler s'
  end.

(** [Date.now()] *)
Definition Date_now : M Z := λ s, (Return (clock s), s).

(** The state a computation leaves. *)
Definition exec {A} (m : M A) (s : State) : State := (m s).2.

(** ** The methods of [FloatChatApp] *)

Definition deg : string := String "176"%char EmptyString.   (* degree sign *)
Definition dq : string := String "034"%char EmptyString.    (* double quote *)
Definition show_nat (n : nat) : string := NilZero.string_of_uint (Nat.to_uint n).

Definition initialFloats : list ArgoFloat := [
  {| float_id := "2901623"; lat := (-105, -1); lng := (678, -1);
     status := "active"; temp := (285, -1); salinity := (351, -1) |};
  {| float_id := "2901624"; lat := (-152, -1); lng := (721, -1);
     status := "active"; temp := (278, -1); salinity := (353, -1) |};
  {| float_id := "2901625"; lat := (-87, -1); lng := (653, -1);
     status := "active"; temp := (291, -1); salinity := (349, -1) |};
  {| float_id := "2901626"; lat := (-128, -1); lng := (705, -1);
     status := "maintenance"; temp := (252, -1); salinity := (350, -1) |};
  {| float_id := "2901627"; lat := (-62, -1); lng := (689, -1);
     status := "active"; temp := (288, -1); salinity := (352, -1) |}
].

(** *** Elements *)

(** The children that the setter of [innerHTML] makes of [markup]. *)
Definition parsed (markup : string) : Content :=
  match HTML.parse (units markup) with
  | Some tree => Children tree
  | None => Unread
  end.

(** The children after [innerHTML += markup]: the getter serializes the
    children, the string with [markup] after it goes to the setter. *)
Definition append_markup (markup : string) (c : Content) : Content :=
  match c with
  | Children tree =>
      match HTML.append (units markup) tree with
      | Some tree' => Children tree'
      | None => Unread
      end
  | _ => Unread
  end.

(** [innerHTML += markup] on a stored element. *)
Definition append_html (r : ref) (markup : string) : M unit :=
  modify (λ s, set_nodes (alter (append_markup markup) r (nodes s)) s).

(** [innerHTML = template] on a stored element. *)
Definition set_html (r : ref) (c : Content) : M unit :=
  modify (λ s, set_nodes (alter (λ _, c) r (nodes s)) s).

(** A new element with the given children, created by parsing a template. *)
Definition create_element (c : Content) : M ref :=
  s ← get;
  modify (set_nodes (nodes s ++ [c]));;
  mret (length (nodes s)).

Definition nl : string := String "010"%char EmptyString.    (* line feed *)

Fixpoint spaces (n : nat) : string :=
  match n with
  | O => EmptyString
  | S m => String " "%char (spaces m)
  end.

(** The markup of a chat message. The script has it three times, with the
    lines indented by [indent] spaces: in the template of
    [renderChatInterface] for the greeting (24), in [sendChatMessage] for the
    message of the user (12) and in its timer callback for the reply (16).
    [text] is interpolated as it is. *)
Definition message_template (indent : nat) (sender text : string) : string :=
  nl +:+ spaces indent +:+ "<div class=" +:+ dq +:+ "message " +:+ sender +:+ dq +:+ ">" +:+
  nl +:+ spaces (indent + 4) +:+ "<p>" +:+ text +:+ "</p>" +:+
  nl +:+ spaces indent +:+ "</div>" +:+
  nl +:+ spaces (indent - 4).

(** [setTimeout(callback, delay)] *)
Definition setTimeout (c : Callback) (delay : Z) : M unit :=
  modify (λ s, set_timers (timers s ++ [{| due := clock s + delay; callback := c |}]) s).

(** [v.key] for a key that no prototype defines: [None] is [undefined],
    and reading a property of [null] throws. *)
Definition get_property (v : option json) (key : string) : M (option json) :=
  match v with
  | None | Some JNull => throw TypeError
  | Some (JObj fields) => mret (JSON.lookup_field (units key) fields)
  | Some _ => mret None
  end.

(** Truthiness of a field that holds [null] or a parsed value. *)
Definition truthy (v : option json) : bool :=
  match v with
  | None | Some JNull => false
  | Some (JBool b) => b
  | Some (JNum m _) => negb (m =? 0)
  | Some (JStr s) => negb (bool_decide (s = []))
  | Some _ => true
  end.

(** *** Navigation and pages *)

Definition updateNavigation : M unit :=
  s ← get;
  if truthy (currentUser s)
  then modify (set_loginBtnHidden true);; modify (set_logoutBtnHidden false)
  else modify (set_loginBtnHidden false);; modify (set_logoutBtnHidden true).

Definition greeting : string :=
  "Hello! I'm your ARGO data assistant. Ask me about ocean temperature, " +:+
  "salinity, float locations, or any oceanographic data questions.".

(** What the template of [renderChatInterface] has inside [#chatMessages]. *)
Definition greeting_markup : string := message_template 24 "bot" greeting.

(** [document.getElementById('user-content')] followed by an assignment to
    its [innerHTML]: a TypeError when the user dashboard is not shown. *)
Definition set_user_content (c : UserContent) : M unit :=
  s ← get;
  match mainContent s with
  | UserDashboard _ => modify (set_mainContent (UserDashboard (Some c)))
  | _ => throw TypeError
  end.

Definition set_admin_content (c : AdminContent) : M unit :=
  s ← get;
  match mainContent s with
  | AdminDashboard _ => modify (set_mainContent (AdminDashboard (Some c)))
  | _ => throw TypeError
  end.

Definition renderUserProfile : M UserContent :=
  s ← get;
  n ← get_property (currentUser s) "name";
  u ← get_property (currentUser s) "username";
  r ← get_property (currentUser s) "role";
  mret (UserProfile n u r (length (chatHistory s))).

(** Each case assigns the template of its render method to the
    [innerHTML] of [#user-content]: [renderChatInterface] (a new
    [#chatMessages] with the greeting and an empty [#chatInput]),
    [renderArgoMap], [renderOceanMap], [renderUserProfile]. *)
Definition showUserContent (type : string) : M unit :=
  s ← get;
  if decide (type = "chat") then
    match mainContent s with
    | UserDashboard _ =>
        r ← create_element (parsed greeting_markup);
        set_user_content (ChatInterface r "")
    | _ => throw TypeError
    end
  else if decide (type = "argo-map") then
    set_user_content (ArgoMap (length (argoFloats s)) None []);;
    setTimeout InitializeMap 100
  else if decide (type = "ocean-map") then set_user_content OceanMap
  else if decide (type = "profile") then
    c ← renderUserProfile; set_user_content c
  else mret tt.

(** [renderChatbotDB], [renderNCConverter], [renderSystemStatus] and
    [renderUserManagement] into [#admin-content]. *)
Definition showAdminContent (type : string) : M unit :=
  s ← get;
  if decide (type = "chatbot-db") then set_admin_content (ChatbotDB "" None)
  else if decide (type = "nc-converter") then
    match mainContent s with
    | AdminDashboard _ =>
        st ← create_element (Children []);
        rs ← create_element (Children []);
        set_admin_content (NCConverter [] st rs)
    | _ => throw TypeError
    end
  else if decide (type = "system") then
    set_admin_content (SystemStatus (length (argoFloats s)) (length (chatHistory s)))
  else if decide (type = "users") then set_admin_content UserManagement
  else mret tt.

Definition showAuthModal : M unit :=
  modify (set_modalBody (Some {| username_value := ""; password_value := "" |}));;
  modify (set_authModalHidden false).

Definition hideModal : M unit := modify (set_authModalHidden true).

(** [renderHomePage], [renderAboutPage], [renderContactPage],
    [renderUserDashboard] and [renderAdminDashboard] are the constructors of
    [MainContent]. *)
Definition showPage (page : string) : M unit :=
  modify (set_currentPage page);;
  if decide (page = "home") then modify (set_mainContent HomePage)
  else if decide (page = "about") then modify (set_mainContent AboutPage)
  else if decide (page = "contact") then modify (set_mainContent ContactPage)
  else if decide (page = "login") then showAuthModal
  else if decide (page = "user") then
    modify (set_mainContent (UserDashboard None));; showUserContent "chat"
  else if decide (page = "admin") then
    modify (set_mainContent (AdminDashboard None));; showAdminContent "chatbot-db"
  else mret tt.

(** *** Session *)

Definition authToken : string := "authToken".

Definition removeItem (key : string) : M unit :=
  modify (λ s, set_localStorage (delete key (localStorage s)) s).

Definition setItem (key value : string) : M unit :=
  modify (λ s, set_localStorage (<[key := value]> (localStorage s)) s).

(** [JSON.parse(atob(token.split('.')[1]))] *)
Definition decode_token (token : string) : M json :=
  match JS.atob (JS.ToString_opt (JS.split "."%char token !! 1%nat)) with
  | None => throw InvalidCharacterError
  | Some text =>
      match JSON.parse text with
      | None => throw SyntaxError
      | Some payload => mret payload
      end
  end.

Definition checkAuthStatus : M unit :=
  s ← get;
  match localStorage s !! authToken with
  | None => mret tt
  | Some token =>
      if decide (token = "") then mret tt
      else
        try_catch
          (payload ← decode_token token;
           exp ← get_property (Some payload) "exp";
           now ← Date_now;
           if JSON.gt_seconds (JSON.ToNumber exp) now
           then modify (set_currentUser (Some payload));; updateNavigation
           else mret tt)
          (removeItem authToken)
  end.

Definition demoUsers : list (string * Account) := [
  ("user", {| password := "user123"; role := "user"; name := "Marine Researcher" |});
  ("admin", {| password := "admin123"; role := "admin"; name := "System Administrator" |})
].

(** The properties every object literal inherits from [Object.prototype]. *)
Definition object_prototype_names : list string := [
  "constructor"; "__defineGetter__"; "__defineSetter__"; "hasOwnProperty";
  "__lookupGetter__"; "__lookupSetter__"; "isPrototypeOf";
  "propertyIsEnumerable"; "toString"; "valueOf"; "__proto__"; "toLocaleString"
].

(** The value of [demoUsers[username]]. *)
Inductive Lookup :=
| Entry (a : Account)
| Inherited          (* a function or the prototype: truthy, no [password] *)
| Undefined.

Fixpoint assoc {A} (k : string) (l : list (string * A)) : option A :=
  match l with
  | [] => None
  | (k', a) :: r => if decide (k = k') then Some a else assoc k r
  end.

Definition demoUsers_get (username : string) : Lookup :=
  match assoc username demoUsers with
  | Some a => Entry a
  | None =>
      if decide (username ∈ object_prototype_names) then Inherited else Undefined
  end.

Definition handleLogin : M unit :=
  s ← get;
  match modalBody s with
  | None => throw TypeError
  | Some form =>
      let username := username_value form in
      let pw := password_value form in
      match demoUsers_get username with
      | Entry a =>
          if decide (password a = pw) then
            let fields := [(units "username", JStr (units username));
                           (units "role", JStr (units (role a)));
                           (units "name", JStr (units (name a)))] in
            modify (set_currentUser (Some (JObj fields)));;
            now ← Date_now;
            let payload :=
              JObj (JSON.define_field (units "exp") (JNum (now / 1000 + 3600) 0) fields) in
            match JS.btoa (JSON.stringify payload) with
            | None => throw InvalidCharacterError
            | Some token =>
                setItem authToken token;;
                hideModal;;
                updateNavigation;;
                showPage (role a)
            end
          else modify (λ s, set_alerts (alerts s ++ ["Invalid credentials"]) s)
      | Inherited | Undefined =>
          modify (λ s, set_alerts (alerts s ++ ["Invalid credentials"]) s)
      end
  end.

Definition logout : M unit :=
  modify (set_currentUser None);;
  removeItem authToken;;
  updateNavigation;;
  showPage "home".

(** *** Chat *)

(** The [responses] object of [generateChatResponse], as its entries in
    insertion order. *)
Definition responses (this : State) : list (string * string) :=
  [
   ("temperature",
    "I found temperature data from " +:+ show_nat (length (argoFloats this)) +:+
    " active floats. Average surface temperature is 28.1" +:+ deg +:+
    "C with variations from 25" +:+ deg +:+ "C to 29" +:+ deg +:+
    "C. The thermocline typically occurs around 80-120m depth.");
   ("salinity",
    "Salinity measurements show typical values of 34.9-35.3 " +:+
    "PSU across the monitored region. Higher salinity is " +:+
    "observed in the Arabian Sea due to evaporation effects.");
   ("location",
    "Currently tracking " +:+ show_nat (length (argoFloats this)) +:+
    " ARGO floats across the Indian Ocean. Most recent data " +:+
    "shows floats distributed between 6" +:+ deg +:+ "S-16" +:+ deg +:+
    "S latitude and 65" +:+ deg +:+ "E-73" +:+ deg +:+ "E longitude.");
   ("float",
    "ARGO float network includes " +:+
    show_nat (length (filter (λ f, status f = "active") (argoFloats this))) +:+
    " active floats. Each float profiles to 2000m depth every " +:+
    "10 days, collecting T/S data.");
   ("profile",
    "Ocean profiles show typical tropical stratification with " +:+
    "warm surface waters (28-29" +:+ deg +:+
    "C), sharp thermocline (100-200m), and cooler deep waters " +:+ "(2-4" +:+
    deg +:+ "C at 2000m).")
  ].

Definition fallback : string :=
  "I can help you explore ARGO float data including " +:+
  "temperature, salinity, and location information. Try " +:+
  "asking about specific parameters like " +:+ dq +:+
  "show temperature profiles" +:+ dq +:+ " or " +:+ dq +:+
  "where are the nearest floats" +:+ dq +:+ ".".

Fixpoint first_match (queryLower : string) (entries : list (string * string))
  : option string :=
  match entries with
  | [] => None
  | (key, response) :: r =>
      if JS.includes queryLower key then Some response
      else first_match queryLower r
  end.

Definition generateChatResponse (this : State) (query : string) : string :=
  let queryLower := JS.toLowerCase query in
  match first_match queryLower (responses this) with
  | Some response => response
  | None => fallback
  end.

Definition set_chatInput (v : string) : M unit :=
  s ← get;
  match mainContent s with
  | UserDashboard (Some (ChatInterface r _)) =>
      modify (set_mainContent (UserDashboard (Some (ChatInterface r v))))
  | _ => throw TypeError
  end.

(** The two assignments to [scrollTop] move the view only and are left
    out. *)
Definition sendChatMessage : M unit :=
  s ← get;
  match mainContent s with
  | UserDashboard (Some (ChatInterface messagesContainer value)) =>
      let message := JS.trim value in
      if decide (message = "") then mret tt
      else
        append_html messagesContainer (message_template 12 "user" message);;
        this ← get;
        let response := generateChatResponse this message in
        setTimeout (AppendBotReply messagesContainer response) 1000;;
        modify (λ s, set_chatHistory
                       (chatHistory s ++
                        [{| user := message; bot := response; timestamp := clock s |}]) s);;
        set_chatInput ""
  | _ => throw TypeError
  end.

(** *** Map *)

Definition marker_of (f : ArgoFloat) : Marker :=
  {| position := (lat f, lng f);
     color := if decide (status f = "active") then "green" else "orange";
     popup := f |}.

(** The map is Leaflet's: of it the model keeps the markers with their
    popups. [L.map('argoMap')] fails when the container is not in the
    document or already holds a map. *)
Definition initializeMap : M unit :=
  s ← get;
  match mainContent s with
  | UserDashboard (Some (ArgoMap n None _)) =>
      set_user_content (ArgoMap n (Some (marker_of <$> argoFloats s)) (argoFloats s))
  | _ => throw LeafletError
  end.

(** *** Administration *)

Definition set_updateStatus (st : Status) : M unit :=
  s ← get;
  match mainContent s with
  | AdminDashboard (Some (ChatbotDB text _)) =>
      modify (set_mainContent (AdminDashboard (Some (ChatbotDB text (Some st)))))
  | _ => throw TypeError
  end.

Definition updateChatbotDB : M unit :=
  s ← get;
  match mainContent s with
  | AdminDashboard (Some (ChatbotDB trainingData _)) =>
      try_catch
        (match JSON.parse trainingData with
         | Some _ => set_updateStatus UpdatedSuccessfully
         | None => throw SyntaxError
         end)
        (set_updateStatus InvalidJSON)
  | _ => throw TypeError
  end.

Fixpoint replace_first (pattern replacement s : string) : string :=
  if String.prefix pattern s
  then replacement +:+ String.substring (String.length pattern)
                         (String.length s - String.length pattern) s
  else match s with
       | EmptyString => EmptyString
       | String c r => String c (replace_first pattern replacement r)
       end.

Definition convertNCFiles : M unit :=
  s ← get;
  match mainContent s with
  | AdminDashboard (Some (NCConverter files statusDiv resultsDiv)) =>
      if decide (length files = 0%nat)
      then set_html statusDiv (StatusDiv SelectFiles)
      else
        set_html statusDiv (StatusDiv Converting);;
        setTimeout (FinishConversion statusDiv resultsDiv files) 2000
  | _ => throw TypeError
  end.

Definition finishConversion (statusDiv resultsDiv : ref) (files : list string) : M unit :=
  set_html statusDiv (StatusDiv ConversionCompleted);;
  set_html resultsDiv
    (ResultsBlock ((λ f, (f, replace_first ".nc" ".csv" f)) <$> files)).

(** *** Start-up *)

Definition init : M unit := showPage "home";; checkAuthStatus.

(** The state [new FloatChatApp()] starts from, in a browser with the given
    storage and clock. The page itself is not part of the sources: it is
    taken to provide the elements the script looks up at load time
    ([main-content], [loginBtn], [logoutBtn], [authModal], [modalBody]),
    with the modal and the logout button hidden. *)
Definition constructed (storage : gmap string string) (now : Z) : State :=
  {| currentUser := None; currentPage := "home"; chatHistory := [];
     argoFloats := initialFloats;
     localStorage := storage; clock := now; mainContent := Blank;
     loginBtnHidden := false; logoutBtnHidden := true;
     authModalHidden := true; modalBody := None;
     nodes := []; timers := []; alerts := [] |}.

Definition new_FloatChatApp (storage : gmap string string) (now : Z) : State :=
  exec init (constructed storage now).

(** ** Events: what the user and the timers do to a loaded page *)

Definition run_callback (c : Callback) : M unit :=
  match c with
  | AppendBotReply r response => append_html r (message_template 16 "bot" response)
  | InitializeMap => initializeMap
  | FinishConversion st rs files => finishConversion st rs files
  end.

(** The [i]-th pending timer runs if it is due, and is no longer pending. *)
Definition fire (i : nat) : M unit :=
  s ← get;
  match timers s !! i with
  | Some t =>
      if decide (due t ≤ clock s)
      then modify (set_timers (delete i (timers s)));; run_callback (callback t)
      else mret tt
  | None => mret tt
  end.

Definition type_username (v : string) : M unit :=
  s ← get;
  match modalBody s with
  | Some form =>
      modify (set_modalBody (Some {| username_value := v;
                                     password_value := password_value form |}))
  | None => mret tt
  end.

Definition type_password (v : string) : M unit :=
  s ← get;
  match modalBody s with
  | Some form =>
      modify (set_modalBody (Some {| username_value := username_value form;
                                     password_value := v |}))
  | None => mret tt
  end.

Definition type_trainingData (v : string) : M unit :=
  s ← get;
  match mainContent s with
  | AdminDashboard (Some (ChatbotDB _ st)) =>
      modify (set_mainContent (AdminDashboard (Some (ChatbotDB v st))))
  | _ => mret tt
  end.

Definition choose_files (files : list string) : M unit :=
  s ← get;
  match mainContent s with
  | AdminDashboard (Some (NCConverter _ st rs)) =>
      modify (set_mainContent (AdminDashboard (Some (NCConverter files st rs))))
  | _ => mret tt
  end.

Inductive Event :=
| Elapse (ms : N)                         (* time passes *)
| Reload                                  (* the page is loaded again *)
| ShowPage (page : string)
| HideModal
| Logout
| TypeUsername (v : string)
| TypePassword (v : string)
| SubmitLogin
| ShowUserContent (type : string)
| ShowAdminContent (type : string)
| TypeChat (v : string)
| SendChatMessage
| TypeTrainingData (v : string)
| UpdateChatbotDB
| ChooseFiles (files : list string)
| ConvertNCFiles
| Fire (i : nat).

Definition handler (e : Event) : M unit :=
  match e with
  | Elapse ms => modify (λ s, set_clock (clock s + Z.of_N ms) s)
  | Reload => modify (λ s, new_FloatChatApp (localStorage s) (clock s))
  | ShowPage page => showPage page
  | HideModal => hideModal
  | Logout => logout
  | TypeUsername v => type_username v
  | TypePassword v => type_password v
  | SubmitLogin => handleLogin
  | ShowUserContent type => showUserContent type
  | ShowAdminContent type => showAdminContent type
  | TypeChat v => try_catch (set_chatInput v) (mret tt)
  | SendChatMessage => sendChatMessage
  | TypeTrainingData v => type_trainingData v
  | UpdateChatbotDB => updateChatbotDB
  | ChooseFiles files => choose_files files
  | ConvertNCFiles => convertNCFiles
  | Fire i => fire i
  end.

(** An exception that leaves a handler is reported and dropped; the state
    it reached stays. *)
Definition step (s : State) (e : Event) : State := exec (handler e) s.

Definition run (s : State) (es : list Event) : State := foldl step s es.

(** [login(username, password)]: the form is filled in and submitted. *)
Definition login (username pw : string) : M unit :=
  type_username username;; type_password pw;; handleLogin.

(** * Properties *)

(** The page identifiers [showPage] has a case for. *)
Definition page_identifiers : list string :=
  ["home"; "about"; "contact"; "login"; "user"; "admin"].

(** A freshly loaded page with empty storage, used for concrete runs. *)
Definition fresh : State := new_FloatChatApp ∅ 1700000000123.

(** ** Unfolding the monad *)

Lemma bind_eq {A B} (m : M A) (f : A → M B) (s : State) :
  (m ≫= f) s = match m s with
               | (Return a, s') => f a s'
               | (Throw e, s') => (Throw e, s')
               end.
Proof. reflexivity. Qed.

Ltac run_monad :=
  repeat (rewrite ?bind_eq; cbn [get modify throw mret M_ret Date_now fst snd exec]).

(** ** The built-ins on sample inputs *)

Example btoa_sample : JS.btoa (units "abcd") = Some "YWJjZA==".
Proof. reflexivity. Qed.

Example atob_samples :
  JS.atob <$> ["YWJjZA=="; "YWJj ZA"; "YWJjZ"; "YW.j"; "undefined"; ""] =
    [Some "abcd"; Some "abcd"; None; None; None; Some ""].
Proof. reflexivity. Qed.

Example split_samples :
  JS.split "."%char <$> ["a.b.c"; "abc"; ""; "a."] =
    [["a"; "b"; "c"]; ["abc"]; [""]; ["a"; ""]].
Proof. reflexivity. Qed.

Example parse_accepts :
  JSON.parse <$> ["42"; " [1, 2.50e1, -0, true, null] "; "[[[[[[[[1]]]]]]]]";
                  "{" +:+ dq +:+ "a" +:+ dq +:+ " : [], " +:+
                    dq +:+ "a" +:+ dq +:+ ":{}}"] =
    [Some (JNum 42 0);
     Some (JArr [JNum 1 0; JNum 250 (-1); JNum 0 0; JBool true; JNull]);
     Some (JArr [JArr [JArr [JArr [JArr [JArr [JArr [JArr [JNum 1 0]]]]]]]]);
     Some (JObj [(units "a", JObj [])])].
Proof. reflexivity. Qed.

Example parse_rejects :
  JSON.parse <$> [""; "01"; "1."; ".5"; "+1"; "1e"; "-"; "tru"; "[1,]"; "[1 2]";
                  "{a:1}"; "'a'"; "[[1]"; "1 2"; "undefined"] =
    replicate 15 None.
Proof. reflexivity. Qed.

Example gt_seconds_samples :
  JSON.gt_seconds (JSON.Finite 1700000001 0) 1700000000999 = true ∧
  JSON.gt_seconds (JSON.Finite 1700000000 0) 1700000000000 = false ∧
  JSON.gt_seconds (JSON.ToNumber (Some (JStr (units " 2e9 ")))) 1700000000000 = true ∧
  JSON.gt_seconds (JSON.ToNumber None) 0 = false.
Proof. repeat split; reflexivity. Qed.

(** ** C3: [showPage] on an unknown identifier *)

(** C3 (as the code has it): for a page identifier outside
    {home, about, contact, login, user, admin}, [showPage] ends normally,
    renders nothing and changes nothing of the state but the current-page
    field, which it sets to the given identifier. *)
Theorem showPage_unknown_sets_currentPage (page : string) (s : State) :
  page ∉ page_identifiers →
  showPage page s = (Return tt, set_currentPage page s).
Proof.
  intros Hnot. unfold showPage. run_monad.
  repeat (case_decide;
          [exfalso; apply Hnot; subst page; unfold page_identifiers; set_solver |]).
  reflexivity.
Qed.

Lemma showPage_unknown_sets_currentPage_witness :
  ("settings" ∉ page_identifiers) ∧
  showPage "settings" fresh = (Return tt, set_currentPage "settings" fresh).
Proof.
  assert (H : "settings" ∉ page_identifiers).
  { unfold page_identifiers. intros Hin. 
    repeat (apply elem_of_cons in Hin as [Hin | Hin]; [discriminate Hin |]).
    by apply elem_of_nil in Hin. }
  split; [exact H | exact (showPage_unknown_sets_currentPage "settings" fresh H)].
Defined.

(** C3 (as stated) fails: on the unknown identifier "settings" the
    current-page field of a freshly loaded page changes from "home". *)
Lemma showPage_unknown_not_noop :
  ("settings" ∉ page_identifiers) ∧
  currentPage fresh = "home" ∧
  currentPage (exec (showPage "settings") fresh) = "settings" ∧
  exec (showPage "settings") fresh ≠ fresh.
Proof.
  split.
  { unfold page_identifiers. intros Hin.
    repeat (apply elem_of_cons in Hin as [Hin | Hin]; [discriminate Hin |]).
    by apply elem_of_nil in Hin. }
  split; [reflexivity |]. split; [reflexivity |].
  intros Heq. apply (f_equal currentPage) in Heq. discriminate Heq.
Qed.

(** ** C6: blank chat input *)

Definition blank (v : string) : Prop :=
  Forall (λ c, JS.is_white c = true) (String.list_ascii_of_string v).

Lemma trimStart_blank (v : string) : blank v → JS.trimStart v = "".
Proof.
  unfold blank. induction v as [| c r IH]; cbn; [reflexivity |].
  intros H. apply Forall_cons in H as [Hc Hr]. rewrite Hc. auto.
Qed.

(** The trimmed text is empty exactly for the empty and the white-space-only
    inputs. *)
Lemma trim_blank (v : string) : JS.trim v = "" ↔ blank v.
Proof.
  split.
  - unfold JS.trim, blank. induction v as [| c r IH]; [constructor |].
    cbn [JS.trimStart String.list_ascii_of_string].
    destruct (JS.is_white c) eqn:Hc.
    + intros H. constructor; [exact Hc | by apply IH].
    + cbn [JS.trimEnd]. rewrite Hc. by destruct (JS.trimEnd r).
  - intros H. unfold JS.trim. by rewrite trimStart_blank.
Qed.

Lemma sendChatMessage_returns_early (s : State) (r : ref) (v : string) :
  mainContent s = UserDashboard (Some (ChatInterface r v)) →
  JS.trim v = "" →
  sendChatMessage s = (Return tt, s).
Proof.
  intros Hmain Hblank. unfold sendChatMessage. run_monad.
  rewrite Hmain, Hblank. reflexivity.
Qed.

(** C6: when the trimmed text of the chat input is empty (the input is
    empty or white space only, see [trim_blank]), [sendChatMessage] returns
    at once: the state (transcript, history, timers and all the rest) is
    what it was. *)
Theorem sendChatMessage_blank_rejected (s : State) (r : ref) (v : string) :
  mainContent s = UserDashboard (Some (ChatInterface r v)) →
  JS.trim v = "" →
  sendChatMessage s = (Return tt, s) ∧ step s SendChatMessage = s.
Proof.
  intros Hmain Hblank. unfold step, exec. cbn [handler].
  by rewrite (sendChatMessage_returns_early s r v Hmain Hblank).
Qed.

(** The chat of a user who has just logged in. *)
Definition chatting : State :=
  exec (login "user" "user123") (exec (showPage "login") fresh).

Definition typed (v : string) : State := step chatting (TypeChat v).

Lemma sendChatMessage_blank_rejected_witness :
  sendChatMessage (typed "   ") = (Return tt, typed "   ") ∧
  step (typed "   ") SendChatMessage = typed "   ".
Proof.
  apply (sendChatMessage_blank_rejected (typed "   ") 0%nat "   ").
  - reflexivity.
  - reflexivity.
Defined.

(** ** C9: the training-data box *)

(** C9: with the chatbot-database form shown, [updateChatbotDB] ends
    normally and changes nothing but the status line; the status is the
    failure marker exactly when [JSON.parse] rejects the text, and the
    success marker for every text it accepts, whatever value it denotes
    (a bare number for one). *)
Theorem updateChatbotDB_status (s : State) (text : string) (st : option Status) :
  mainContent s = AdminDashboard (Some (ChatbotDB text st)) →
  ∃ marker,
    updateChatbotDB s =
      (Return tt,
       set_mainContent (AdminDashboard (Some (ChatbotDB text (Some marker)))) s) ∧
    (marker = InvalidJSON ↔ JSON.parse text = None) ∧
    (marker = UpdatedSuccessfully ↔ ∃ v, JSON.parse text = Some v) ∧
    (text = "42" → marker = UpdatedSuccessfully).
Proof.
  intros Hmain. unfold updateChatbotDB, try_catch, set_updateStatus. run_monad.
  rewrite Hmain.
  destruct (JSON.parse text) as [v |] eqn:Hparse; run_monad; rewrite ?Hmain.
  - exists UpdatedSuccessfully. split; [reflexivity |].
    split; [split; intros; discriminate |]. split; [| done].
    split; [eauto | done].
  - exists InvalidJSON. split; [reflexivity |].
    split; [done |]. split.
    + split; [discriminate | intros [v Hv]; discriminate].
    + intros ->. vm_compute in Hparse. discriminate.
Qed.

(** The administrator's landing page. *)
Definition administering : State :=
  exec (login "admin" "admin123") (exec (showPage "login") fresh).

Lemma updateChatbotDB_status_witness :
  ∃ marker,
    updateChatbotDB (step administering (TypeTrainingData "{oops")) =
      (Return tt,
       set_mainContent (AdminDashboard (Some (ChatbotDB "{oops" (Some marker))))
         (step administering (TypeTrainingData "{oops"))) ∧
    (marker = InvalidJSON ↔ JSON.parse "{oops" = None) ∧
    (marker = UpdatedSuccessfully ↔ ∃ v, JSON.parse "{oops" = Some v) ∧
    ("{oops" = "42" → marker = UpdatedSuccessfully).
Proof.
  apply (updateChatbotDB_status (step administering (TypeTrainingData "{oops"))
           "{oops" None).
  reflexivity.
Defined.

(** ** C5: the resolver *)

(** The six replies as literal texts, for the fixed list of five floats of
    which four are active. *)
Definition temperature_paragraph : string :=
  "I found temperature data from 5 active floats. Average " +:+
  "surface temperature is 28.1" +:+ deg +:+ "C with variations from 25" +:+
  deg +:+ "C to 29" +:+ deg +:+
  "C. The thermocline typically occurs around 80-120m depth.".

Definition salinity_paragraph : string :=
  "Salinity measurements show typical values of 34.9-35.3 " +:+
  "PSU across the monitored region. Higher salinity is " +:+
  "observed in the Arabian Sea due to evaporation effects.".

Definition location_paragraph : string :=
  "Currently tracking 5 ARGO floats across the Indian Ocean. " +:+
  "Most recent data shows floats distributed between 6" +:+ deg +:+ "S-16" +:+
  deg +:+ "S latitude and 65" +:+ deg +:+ "E-73" +:+ deg +:+ "E longitude.".

Definition float_paragraph : string :=
  "ARGO float network includes 4 active floats. Each float " +:+
  "profiles to 2000m depth every 10 days, collecting T/S " +:+ "data.".

Definition profile_paragraph : string :=
  "Ocean profiles show typical tropical stratification with " +:+
  "warm surface waters (28-29" +:+ deg +:+
  "C), sharp thermocline (100-200m), and cooler deep waters " +:+ "(2-4" +:+
  deg +:+ "C at 2000m).".

Definition fallback_paragraph : string :=
  "I can help you explore ARGO float data including " +:+
  "temperature, salinity, and location information. Try " +:+
  "asking about specific parameters like " +:+ dq +:+
  "show temperature profiles" +:+ dq +:+ " or " +:+ dq +:+
  "where are the nearest floats" +:+ dq +:+ ".".

Definition canned_replies : list string :=
  [temperature_paragraph; salinity_paragraph; location_paragraph;
   float_paragraph; profile_paragraph; fallback_paragraph].

(** The resolver in the words of the specification: the paragraph of the
    first of the keywords temperature, salinity, location, float, profile,
    in this order, that occurs in the lower-cased query, and the fallback
    when none occurs. *)
Definition resolve (query : string) : string :=
  let q := JS.toLowerCase query in
  if JS.includes q "temperature" then temperature_paragraph
  else if JS.includes q "salinity" then salinity_paragraph
  else if JS.includes q "location" then location_paragraph
  else if JS.includes q "float" then float_paragraph
  else if JS.includes q "profile" then profile_paragraph
  else fallback_paragraph.

Lemma responses_initial (this : State) :
  argoFloats this = initialFloats →
  responses this =
    [("temperature", temperature_paragraph); ("salinity", salinity_paragraph);
     ("location", location_paragraph); ("float", float_paragraph);
     ("profile", profile_paragraph)].
Proof. intros H. unfold responses. rewrite H. reflexivity. Qed.

Lemma generateChatResponse_resolve (this : State) (query : string) :
  argoFloats this = initialFloats →
  generateChatResponse this query = resolve query.
Proof.
  intros H. unfold generateChatResponse, resolve.
  rewrite (responses_initial this H). cbn [first_match].
  repeat (destruct (JS.includes _ _); [reflexivity |]). reflexivity.
Qed.

Lemma resolve_canned (query : string) : resolve query ∈ canned_replies.
Proof.
  unfold resolve, canned_replies. cbn zeta.
  repeat (destruct (JS.includes _ _); [set_solver |]). set_solver.
Qed.

(** C5: with the fixed float list, [generateChatResponse] is the resolver
    of the specification: it answers with the paragraph of the first
    keyword, in the order temperature, salinity, location, float, profile,
    found in the lower-cased query, and with the fallback when none is
    found. The answer is always one of the six fixed texts, and a query
    with both "temperature" and "salinity" gets the temperature paragraph. *)
Theorem generateChatResponse_priority (this : State) (query : string) :
  argoFloats this = initialFloats →
  generateChatResponse this query = resolve query ∧
  generateChatResponse this query ∈ canned_replies ∧
  (JS.includes (JS.toLowerCase query) "temperature" = true →
   JS.includes (JS.toLowerCase query) "salinity" = true →
   generateChatResponse this query = temperature_paragraph).
Proof.
  intros H. rewrite (generateChatResponse_resolve this query H).
  split; [reflexivity |]. split; [apply resolve_canned |].
  intros Ht _. unfold resolve. cbn zeta. by rewrite Ht.
Qed.

Lemma generateChatResponse_priority_witness :
  generateChatResponse fresh "Salinity AND Temperature?" =
    resolve "Salinity AND Temperature?" ∧
  generateChatResponse fresh "Salinity AND Temperature?" ∈ canned_replies ∧
  (JS.includes (JS.toLowerCase "Salinity AND Temperature?") "temperature" = true →
   JS.includes (JS.toLowerCase "Salinity AND Temperature?") "salinity" = true →
   generateChatResponse fresh "Salinity AND Temperature?" = temperature_paragraph).
Proof.
  apply (generateChatResponse_priority fresh "Salinity AND Temperature?").
  reflexivity.
Defined.

Example resolve_temperature_today :
  generateChatResponse fresh "What is the temperature today?" = temperature_paragraph.
Proof. reflexivity. Qed.

Example resolve_xyz : generateChatResponse fresh "xyz" = fallback_paragraph.
Proof. reflexivity. Qed.

Example resolve_both :
  JS.includes (JS.toLowerCase "Salinity AND Temperature?") "salinity" = true ∧
  generateChatResponse fresh "Salinity AND Temperature?" = temperature_paragraph.
Proof. split; reflexivity. Qed.

Example canned_replies_distinct : NoDup canned_replies.
Proof. apply (bool_decide_unpack _). vm_compute. exact I. Qed.

(** ** Facts about the built-ins used by the session code *)

Definition latin1 (l : ustring) : Prop := Forall (λ c, (c < 256)%N) l.

Lemma N_of_ascii_lt (c : ascii) : (N_of_ascii c < 256)%N.
Proof. destruct c as [[] [] [] [] [] [] [] []]; vm_compute; reflexivity. Qed.

Lemma units_latin1 (s : string) : latin1 (units s).
Proof.
  unfold latin1, units. induction s as [| c r IH]; cbn; constructor; auto.
  apply N_of_ascii_lt.
Qed.

Lemma latin1_app (a b : ustring) : latin1 a → latin1 b → latin1 (a ++ b).
Proof. unfold latin1. intros. by apply Forall_app. Qed.

Lemma latin1_rev (a : ustring) : latin1 a → latin1 (rev a).
Proof. unfold latin1. apply List.Forall_rev. Qed.

Lemma drop_zeros_cons (c : N) (r : ustring) (e : Z) :
  JSON.drop_zeros (c :: r) e =
    if (c =? 48)%N then JSON.drop_zeros r (e + 1) else (c :: r, e).
Proof.
  destruct c as [| p]; [reflexivity |].
  do 7 (destruct p as [p | p |]; try reflexivity).
Qed.

Lemma latin1_drop_zeros (l : ustring) (e : Z) :
  latin1 l → latin1 (JSON.drop_zeros l e).1.
Proof.
  revert e. induction l as [| c r IH]; intros e H; [done |].
  rewrite drop_zeros_cons. destruct (c =? 48)%N; [| done].
  apply IH. by inversion H.
Qed.

Lemma latin1_zeros (n : Z) : latin1 (JSON.zeros n).
Proof. unfold latin1, JSON.zeros. apply Forall_replicate. done. Qed.

Lemma latin1_digits (n : Z) : latin1 (JSON.digits n).
Proof. apply units_latin1. Qed.

Lemma latin1_positive_to_string (m e : Z) : latin1 (JSON.positive_to_string m e).
Proof.
  unfold JSON.positive_to_string.
  pose proof (latin1_drop_zeros (rev (JSON.digits m)) e
                (latin1_rev _ (latin1_digits m))) as H.
  destruct (JSON.drop_zeros (rev (JSON.digits m)) e) as [rs e']. cbn in H.
  apply latin1_rev in H. set (s := rev rs) in *. clearbody s.
  assert (Hmark : ∀ x, latin1 (101%N :: (if x <? 0 then 45%N else 43%N)
                                :: JSON.digits (Z.abs x))).
  { intros x. constructor; [done |]. constructor; [by destruct (x <? 0) |].
    apply latin1_digits. }
  cbn zeta.
  destruct (_ && _).
  { apply latin1_app; [done | apply latin1_zeros]. }
  destruct (_ && _).
  { apply latin1_app; [by apply Forall_take |].
    apply latin1_app; [by constructor | by apply Forall_drop]. }
  destruct (_ && _).
  { apply (latin1_app [48; 46]%N); [by repeat constructor |].
    apply latin1_app; [apply latin1_zeros | done]. }
  destruct s as [| d [| d' r]]; [constructor | |].
  - constructor; [by inversion H | apply Hmark].
  - inversion H as [| ? ? Hd Htl]; subst.
    constructor; [done |]. constructor; [done |].
    apply latin1_app; [done | apply Hmark].
Qed.

Lemma latin1_number_to_string (m e : Z) : latin1 (JSON.number_to_string m e).
Proof.
  unfold JSON.number_to_string. repeat case_match.
  - by constructor.
  - constructor; [done | apply latin1_positive_to_string].
  - apply latin1_positive_to_string.
Qed.

Lemma b64_char_not_dot (n : N) : JS.b64_char n ≠ "."%char.
Proof.
  unfold JS.b64_char. generalize (N.to_nat n) as k. intros k.
  do 65 (destruct k as [| k]; [vm_compute; discriminate |]).
  vm_compute. discriminate.
Qed.

Lemma btoa_units_no_dot (l : list N) : "."%char ∉ JS.btoa_units l.
Proof.
  assert (H : ∀ n (l : list N), (length l ≤ n)%nat → "."%char ∉ JS.btoa_units l).
  { clear l. induction n as [| n IH]; intros l Hlen.
    - destruct l; [cbn; apply not_elem_of_nil | cbn in Hlen; lia].
    - destruct l as [| a [| b [| c r]]]; cbn [JS.btoa_units].
      + apply not_elem_of_nil.
      + intros Hin. repeat (apply elem_of_cons in Hin as [Hin | Hin];
          [first [discriminate Hin | exact (b64_char_not_dot _ (eq_sym Hin))] |]).
        by apply elem_of_nil in Hin.
      + intros Hin. repeat (apply elem_of_cons in Hin as [Hin | Hin];
          [first [discriminate Hin | exact (b64_char_not_dot _ (eq_sym Hin))] |]).
        by apply elem_of_nil in Hin.
      + intros Hin.
        do 4 (apply elem_of_cons in Hin as [Hin | Hin];
              [exact (b64_char_not_dot _ (eq_sym Hin)) |]).
        revert Hin. apply IH. cbn in Hlen. lia. }
  apply (H (length l)). lia.
Qed.

Lemma split_without_separator (sep : ascii) (s : string) :
  sep ∉ String.list_ascii_of_string s → JS.split sep s = [s].
Proof.
  induction s as [| c r IH]; cbn; [reflexivity |].
  intros Hnot. apply not_elem_of_cons in Hnot as [Hne Hr].
  destruct (Ascii.eqb_spec c sep) as [-> | _]; [done |].
  by rewrite (IH Hr).
Qed.

(** A token without a dot has no second segment: [atob(undefined)] throws. *)
Lemma decode_token_undotted (token : string) (s : State) :
  "."%char ∉ String.list_ascii_of_string token →
  decode_token token s = (Throw InvalidCharacterError, s).
Proof.
  intros Hnot. unfold decode_token.
  rewrite (split_without_separator _ _ Hnot). reflexivity.
Qed.

(** The object [handleLogin] makes the session, and the one it encodes. *)
Definition session (username : string) (a : Account) : list (ustring * json) :=
  [(units "username", JStr (units username));
   (units "role", JStr (units (role a)));
   (units "name", JStr (units (name a)))].

Definition credential (username : string) (a : Account) (now : Z) : json :=
  JObj (JSON.define_field (units "exp") (JNum (now / 1000 + 3600) 0)
          (session username a)).

Lemma latin1_cons (c : N) (l : ustring) : (c < 256)%N → latin1 l → latin1 (c :: l).
Proof. by constructor. Qed.

Lemma escape_unit_latin1 (c : ascii) : latin1 (JSON.escape_unit (N_of_ascii c)).
Proof. destruct c as [[] [] [] [] [] [] [] []]; vm_compute; repeat constructor. Qed.

Lemma not_surrogate (c : ascii) : JS.in_range 55296 56319 (N_of_ascii c) = false.
Proof. destruct c as [[] [] [] [] [] [] [] []]; reflexivity. Qed.

Lemma quote_latin1 (s : string) : latin1 (JSON.quote (units s)).
Proof.
  unfold JSON.quote. apply (latin1_app [34%N]); [by repeat constructor |].
  apply latin1_app; [| by repeat constructor].
  unfold units. induction s as [| c r IH]; [constructor |].
  cbn [String.list_ascii_of_string fmap list_fmap JSON.quote_units].
  unfold JS.unit_code at 1 2. rewrite not_surrogate.
  apply latin1_app; [apply escape_unit_latin1 | exact IH].
Qed.

Lemma join_latin1 (sep : ustring) (parts : list ustring) :
  latin1 sep → Forall latin1 parts → latin1 (JSON.join sep parts).
Proof.
  intros Hsep. induction 1 as [| p r Hp Hr IH]; [constructor |].
  cbn [JSON.join]. destruct r as [| q r]; [exact Hp |].
  apply latin1_app; [exact Hp |]. apply latin1_app; [exact Hsep | exact IH].
Qed.

Definition print_field (kx : ustring * json) : ustring :=
  JSON.quote kx.1 ++ [58%N] ++ JSON.stringify kx.2.

Lemma stringify_object (fs : list (ustring * json)) :
  JSON.stringify (JObj fs) =
    [123%N] ++ JSON.join [44%N] (print_field <$> fs) ++ [125%N].
Proof.
  cbn [JSON.stringify]. do 3 f_equal.
  induction fs as [| [k x] r IH]; [reflexivity |].
  cbn [fmap list_fmap]. rewrite <- IH. reflexivity.
Qed.

Lemma stringify_object_latin1 (fs : list (ustring * json)) :
  Forall (λ kx, latin1 (print_field kx)) fs → latin1 (JSON.stringify (JObj fs)).
Proof.
  intros H. rewrite stringify_object.
  apply (latin1_app [123%N]); [by repeat constructor |].
  apply latin1_app; [| by repeat constructor].
  apply join_latin1; [by repeat constructor |]. by apply Forall_fmap.
Qed.

Lemma define_field_Forall (P : ustring * json → Prop) (k : ustring) (v : json)
    (fs : list (ustring * json)) :
  P (k, v) → Forall P fs → Forall P (JSON.define_field k v fs).
Proof.
  intros Hkv. induction 1 as [| [k' v'] r Hh Hr IH]; cbn [JSON.define_field].
  - by repeat constructor.
  - unfold JSON.ueqb. case_bool_decide as Heq.
    + subst k'. by constructor.
    + by constructor.
Qed.

Lemma print_string_field_latin1 (k s : string) :
  latin1 (print_field (units k, JStr (units s))).
Proof.
  unfold print_field. cbn [fst snd JSON.stringify].
  apply latin1_app; [apply quote_latin1 |].
  apply (latin1_app [58%N]); [by repeat constructor | apply quote_latin1].
Qed.

Lemma credential_latin1 (username : string) (a : Account) (now : Z) :
  latin1 (JSON.stringify (credential username a now)).
Proof.
  unfold credential. apply stringify_object_latin1, define_field_Forall.
  - unfold print_field. cbn [fst snd JSON.stringify].
    apply latin1_app; [apply quote_latin1 |].
    apply (latin1_app [58%N]); [by repeat constructor |].
    apply latin1_number_to_string.
  - unfold session.
    do 3 (constructor; [apply print_string_field_latin1 |]). constructor.
Qed.

(** The token [handleLogin] stores. *)
Definition token_of (username : string) (a : Account) (now : Z) : string :=
  String.string_of_list_ascii
    (JS.btoa_units (JSON.stringify (credential username a now))).

Lemma forallb_latin1 (l : ustring) :
  latin1 l → forallb (λ c, (c <? 256)%N) l = true.
Proof.
  induction 1 as [| c r Hc Hr IH]; [reflexivity |].
  cbn [forallb]. rewrite IH. by apply N.ltb_lt in Hc as ->.
Qed.

Lemma btoa_credential (username : string) (a : Account) (now : Z) :
  JS.btoa (JSON.stringify (credential username a now)) =
    Some (token_of username a now).
Proof.
  unfold JS.btoa, token_of.
  by rewrite (forallb_latin1 _ (credential_latin1 username a now)).
Qed.

Lemma token_of_no_dot (username : string) (a : Account) (now : Z) :
  "."%char ∉ String.list_ascii_of_string (token_of username a now).
Proof.
  unfold token_of. rewrite String.list_ascii_of_string_of_list_ascii.
  apply btoa_units_no_dot.
Qed.

Lemma btoa_units_nonempty (l : list N) : l ≠ [] → JS.btoa_units l ≠ [].
Proof. destruct l as [| a [| b [| c r]]]; [done | | |]; discriminate. Qed.

Lemma token_of_nonempty (username : string) (a : Account) (now : Z) :
  token_of username a now ≠ "".
Proof.
  unfold token_of, credential. rewrite stringify_object. cbn [app].
  intros H. apply (f_equal String.list_ascii_of_string) in H.
  rewrite String.list_ascii_of_string_of_list_ascii in H.
  by apply btoa_units_nonempty in H.
Qed.

(** ** C4: login *)

Ltac run_state :=
  repeat (rewrite ?bind_eq;
          cbn [get modify throw mret M_ret Date_now fst snd exec
               currentUser currentPage chatHistory argoFloats localStorage
               clock mainContent loginBtnHidden logoutBtnHidden
               authModalHidden modalBody nodes timers alerts
               set_currentUser set_currentPage set_chatHistory
               set_localStorage set_clock set_mainContent set_loginBtnHidden
               set_logoutBtnHidden set_authModalHidden set_modalBody
               set_nodes set_timers set_alerts]).

Definition user_account : Account :=
  {| password := "user123"; role := "user"; name := "Marine Researcher" |}.

Definition admin_account : Account :=
  {| password := "admin123"; role := "admin"; name := "System Administrator" |}.

(** The state [handleLogin] has reached when it calls [showPage]. *)
Definition signed_in (username : string) (a : Account) (s : State) : State :=
  set_logoutBtnHidden false
    (set_loginBtnHidden true
       (set_authModalHidden true
          (set_localStorage
             (<[authToken := token_of username a (clock s)]> (localStorage s))
             (set_currentUser (Some (JObj (session username a))) s)))).

Lemma handleLogin_accepts (s : State) (form : LoginForm) (a : Account) :
  modalBody s = Some form →
  demoUsers_get (username_value form) = Entry a →
  password a = password_value form →
  handleLogin s = showPage (role a) (signed_in (username_value form) a s).
Proof.
  intros Hform Hget Hpw. unfold handleLogin. run_state.
  rewrite Hform, Hget. destruct (decide _) as [_ | Hne]; [| done].
  run_state.
  pose proof (btoa_credential (username_value form) a (clock s)) as Hb.
  unfold credential, session in Hb. rewrite Hb.
  unfold setItem, hideModal, updateNavigation. run_state.
  cbn [truthy]. run_state. reflexivity.
Qed.

Definition rejected (s : State) : State :=
  set_alerts (alerts s ++ ["Invalid credentials"]) s.

Lemma handleLogin_rejects (s : State) (form : LoginForm) :
  modalBody s = Some form →
  (∀ a, demoUsers_get (username_value form) = Entry a →
        password a ≠ password_value form) →
  handleLogin s = (Return tt, rejected s).
Proof.
  intros Hform Hno. unfold handleLogin. run_state. rewrite Hform.
  destruct (demoUsers_get (username_value form)) as [a | |] eqn:Hget;
    [| reflexivity | reflexivity].
  destruct (decide _) as [Heq | _]; [| reflexivity].
  by destruct (Hno a eq_refl).
Qed.

Lemma demoUsers_get_entry (username : string) (a : Account) :
  demoUsers_get username = Entry a →
  (username = "user" ∧ a = user_account) ∨
  (username = "admin" ∧ a = admin_account).
Proof.
  unfold demoUsers_get, demoUsers. cbn [assoc].
  destruct (decide (username = "user")) as [-> | _];
    [intros [= <-]; by left |].
  destruct (decide (username = "admin")) as [-> | _];
    [intros [= <-]; by right |].
  by destruct (decide _).
Qed.

(** The form with both fields filled in. *)
Definition filled (username pw : string) (s : State) : State :=
  set_modalBody (Some {| username_value := username; password_value := pw |}) s.

Lemma login_fills (username pw : string) (s : State) (form : LoginForm) :
  modalBody s = Some form →
  login username pw s = handleLogin (filled username pw s).
Proof.
  intros Hform. unfold login, type_username, type_password. run_state.
  rewrite Hform. run_state. reflexivity.
Qed.

Lemma showPage_user (s : State) :
  showPage "user" s =
    (Return tt,
     set_mainContent
       (UserDashboard (Some (ChatInterface (length (nodes s)) "")))
       (set_nodes (nodes s ++ [parsed greeting_markup])
          (set_currentPage "user" s))).
Proof.
  unfold showPage. run_state.
  repeat (case_decide; [discriminate |]). case_decide; [| done].
  run_state. unfold showUserContent. run_state.
  case_decide; [| done]. unfold create_element, set_user_content. run_state.
  reflexivity.
Qed.

Lemma showPage_admin (s : State) :
  showPage "admin" s =
    (Return tt,
     set_mainContent (AdminDashboard (Some (ChatbotDB "" None)))
       (set_currentPage "admin" s)).
Proof.
  unfold showPage. run_state.
  repeat (case_decide; [discriminate |]). case_decide; [| done].
  run_state. unfold showAdminContent. run_state.
  case_decide; [| done]. unfold set_admin_content. run_state.
  reflexivity.
Qed.

Lemma login_user (s : State) (form : LoginForm) :
  modalBody s = Some form →
  login "user" "user123" s =
    (Return tt,
     set_mainContent
       (UserDashboard (Some (ChatInterface (length (nodes s)) "")))
       (set_nodes (nodes s ++ [parsed greeting_markup])
          (set_currentPage "user"
             (signed_in "user" user_account (filled "user" "user123" s))))).
Proof.
  intros Hform. rewrite (login_fills _ _ _ _ Hform).
  rewrite (handleLogin_accepts (filled "user" "user123" s)
             {| username_value := "user"; password_value := "user123" |}
             user_account eq_refl eq_refl eq_refl).
  exact (showPage_user _).
Qed.

Lemma login_admin (s : State) (form : LoginForm) :
  modalBody s = Some form →
  login "admin" "admin123" s =
    (Return tt,
     set_mainContent (AdminDashboard (Some (ChatbotDB "" None)))
       (set_currentPage "admin"
          (signed_in "admin" admin_account (filled "admin" "admin123" s)))).
Proof.
  intros Hform. rewrite (login_fills _ _ _ _ Hform).
  rewrite (handleLogin_accepts (filled "admin" "admin123" s)
             {| username_value := "admin"; password_value := "admin123" |}
             admin_account eq_refl eq_refl eq_refl).
  exact (showPage_admin _).
Qed.

(** C4: with the login form shown, [login("user","user123")] and
    [login("admin","admin123")] end normally with a session of role user,
    respectively admin, the credential stored, the modal closed, the
    navigation switched and the landing page of the role shown; every other
    pair of user name and password ends normally with the alert
    "Invalid credentials" and, apart from the alert and the text typed in
    the form, the state as it was: same session, same storage. *)
Theorem login_table (s : State) (form : LoginForm) :
  modalBody s = Some form →
  login "user" "user123" s =
    (Return tt,
     set_mainContent
       (UserDashboard (Some (ChatInterface (length (nodes s)) "")))
       (set_nodes (nodes s ++ [parsed greeting_markup])
          (set_currentPage "user"
             (signed_in "user" user_account (filled "user" "user123" s))))) ∧
  login "admin" "admin123" s =
    (Return tt,
     set_mainContent (AdminDashboard (Some (ChatbotDB "" None)))
       (set_currentPage "admin"
          (signed_in "admin" admin_account (filled "admin" "admin123" s)))) ∧
  (∀ username pw,
     (username, pw) ≠ ("user", "user123") →
     (username, pw) ≠ ("admin", "admin123") →
     login username pw s = (Return tt, rejected (filled username pw s)) ∧
     currentUser (exec (login username pw) s) = currentUser s ∧
     localStorage (exec (login username pw) s) = localStorage s ∧
     alerts (exec (login username pw) s) = alerts s ++ ["Invalid credentials"]).
Proof.
  intros Hform. split; [| split].
  - exact (login_user s form Hform).
  - exact (login_admin s form Hform).
  - intros username pw Hu Ha.
    assert (login username pw s = (Return tt, rejected (filled username pw s))) as Hl.
    { rewrite (login_fills _ _ _ _ Hform).
      apply (handleLogin_rejects (filled username pw s)
               {| username_value := username; password_value := pw |} eq_refl).
      cbn. intros a Hget Hpw.
      apply demoUsers_get_entry in Hget as [[-> ->] | [-> ->]]; cbn in Hpw;
        subst pw; done. }
    unfold exec. rewrite Hl. done.
Qed.

(** A session of a given role. *)
Example login_roles :
  currentUser (exec (login "user" "user123") (exec (showPage "login") fresh)) =
    Some (JObj [(units "username", JStr (units "user"));
                (units "role", JStr (units "user"));
                (units "name", JStr (units "Marine Researcher"))]) ∧
  currentUser (exec (login "admin" "admin123") (exec (showPage "login") fresh)) =
    Some (JObj [(units "username", JStr (units "admin"));
                (units "role", JStr (units "admin"));
                (units "name", JStr (units "System Administrator"))]).
Proof. split; vm_compute; reflexivity. Qed.

(** The login form, as [showPage('login')] shows it on a fresh page. *)
Definition at_login : State := exec (showPage "login") fresh.

Lemma login_table_witness :
  login "user" "user123" at_login =
    (Return tt,
     set_mainContent
       (UserDashboard (Some (ChatInterface (length (nodes at_login)) "")))
       (set_nodes (nodes at_login ++ [parsed greeting_markup])
          (set_currentPage "user"
             (signed_in "user" user_account (filled "user" "user123" at_login))))) ∧
  login "admin" "admin123" at_login =
    (Return tt,
     set_mainContent (AdminDashboard (Some (ChatbotDB "" None)))
       (set_currentPage "admin"
          (signed_in "admin" admin_account (filled "admin" "admin123" at_login)))) ∧
  (∀ username pw,
     (username, pw) ≠ ("user", "user123") →
     (username, pw) ≠ ("admin", "admin123") →
     login username pw at_login = (Return tt, rejected (filled username pw at_login)) ∧
     currentUser (exec (login username pw) at_login) = currentUser at_login ∧
     localStorage (exec (login username pw) at_login) = localStorage at_login ∧
     alerts (exec (login username pw) at_login) =
       alerts at_login ++ ["Invalid credentials"]).
Proof.
  apply (login_table at_login {| username_value := ""; password_value := "" |}).
  reflexivity.
Defined.

(** ** C1 and C2: restoring the session *)

Lemma new_FloatChatApp_eq (storage : gmap string string) (now : Z) :
  new_FloatChatApp storage now =
    exec checkAuthStatus
      (set_mainContent HomePage (set_currentPage "home" (constructed storage now))).
Proof. reflexivity. Qed.

(** A stored token that cannot be decoded is removed, and nothing else
    changes. *)
Lemma checkAuthStatus_undecodable (s : State) (token : string) (e : Error) :
  localStorage s !! authToken = Some token →
  token ≠ "" →
  decode_token token s = (Throw e, s) →
  checkAuthStatus s =
    (Return tt, set_localStorage (delete authToken (localStorage s)) s).
Proof.
  intros Hget Hne Hdec. unfold checkAuthStatus. run_state. rewrite Hget.
  destruct (decide _) as [| _]; [done |].
  unfold try_catch. run_state. rewrite Hdec. reflexivity.
Qed.

(** C1 (what the code does): after either successful login the token is
    in storage under the fixed key, but [checkAuthStatus] never adopts it:
    the token has no dot, so [token.split('.')[1]] is undefined and [atob]
    throws; on the next load of the page, at any time - within the hour of
    validity too - there is no session and the token is removed. *)
Theorem login_then_reload_loses_session
    (s : State) (form : LoginForm) (username pw : string) (a : Account) (later : Z) :
  modalBody s = Some form →
  (username, pw, a) = ("user", "user123", user_account) ∨
  (username, pw, a) = ("admin", "admin123", admin_account) →
  localStorage (exec (login username pw) s) !! authToken =
    Some (token_of username a (clock s)) ∧
  currentUser (exec (login username pw) s) = Some (JObj (session username a)) ∧
  currentUser (new_FloatChatApp (localStorage (exec (login username pw) s)) later) =
    None ∧
  localStorage (new_FloatChatApp (localStorage (exec (login username pw) s)) later)
    !! authToken = None.
Proof.
  intros Hform Hcase.
  pose proof (login_user s form Hform) as Hu.
  pose proof (login_admin s form Hform) as Ha.
  assert (Hstore : localStorage (exec (login username pw) s) =
                   <[authToken := token_of username a (clock s)]> (localStorage s)
                   ∧ currentUser (exec (login username pw) s) =
                     Some (JObj (session username a))).
  { unfold exec. destruct Hcase as [[= -> -> ->] | [= -> -> ->]];
      [rewrite Hu | rewrite Ha]; split; reflexivity. }
  destruct Hstore as [Hstore Huser]. rewrite Hstore, Huser.
  split; [apply lookup_insert_eq |]. split; [reflexivity |].
  rewrite new_FloatChatApp_eq. unfold exec.
  erewrite checkAuthStatus_undecodable.
  - cbn [snd currentUser localStorage set_localStorage set_mainContent
         set_currentPage constructed].
    split; [reflexivity | apply lookup_delete_eq].
  - cbn [localStorage set_mainContent set_currentPage constructed].
    apply lookup_insert_eq.
  - apply token_of_nonempty.
  - apply decode_token_undotted, token_of_no_dot.
Qed.

Lemma login_then_reload_loses_session_witness :
  localStorage (exec (login "user" "user123") at_login) !! authToken =
    Some (token_of "user" user_account (clock at_login)) ∧
  currentUser (exec (login "user" "user123") at_login) =
    Some (JObj (session "user" user_account)) ∧
  currentUser
    (new_FloatChatApp (localStorage (exec (login "user" "user123") at_login))
       (clock at_login + 1000)) = None ∧
  localStorage
    (new_FloatChatApp (localStorage (exec (login "user" "user123") at_login))
       (clock at_login + 1000)) !! authToken = None.
Proof.
  apply (login_then_reload_loses_session at_login
           {| username_value := ""; password_value := "" |}
           "user" "user123" user_account (clock at_login + 1000)).
  - reflexivity.
  - left. reflexivity.
Defined.

(** What was stored is the base64 text of the JSON object
    [{username, role, name, exp}]: decoding the whole token gives it back. *)
Example stored_token_encodes_identity :
  let token := token_of "user" user_account 1700000000123 in
  token = "eyJ1c2VybmFtZSI6InVzZXIiLCJyb2xlIjoidXNlciIsIm5hbWUiOiJNYXJpbmUgUmVzZWFyY2hlciIsImV4cCI6MTcwMDAwMzYwMH0=" ∧
  (JS.atob token ≫= JSON.parse) =
    Some (JObj [(units "username", JStr (units "user"));
                (units "role", JStr (units "user"));
                (units "name", JStr (units "Marine Researcher"));
                (units "exp", JNum 1700003600 0)]) ∧
  JS.split "."%char token !! 1%nat = None.
Proof. vm_compute. done. Qed.

(** C2 (what the code does): a stored token that decodes to a payload
    whose [exp] is not in the future leaves everything as it was: there is
    no session, and the token stays in storage. *)
Theorem expired_credential_not_cleared
    (s : State) (token : string) (payload : json) (exp : option json) :
  localStorage s !! authToken = Some token →
  token ≠ "" →
  decode_token token s = (Return payload, s) →
  get_property (Some payload) "exp" s = (Return exp, s) →
  JSON.gt_seconds (JSON.ToNumber exp) (clock s) = false →
  checkAuthStatus s = (Return tt, s) ∧
  localStorage (exec checkAuthStatus s) !! authToken = Some token ∧
  currentUser (exec checkAuthStatus s) = currentUser s.
Proof.
  intros Hget Hne Hdec Hexp Hpast.
  assert (checkAuthStatus s = (Return tt, s)) as Hrun.
  { unfold checkAuthStatus. run_state. rewrite Hget.
    destruct (decide _) as [| _]; [done |].
    unfold try_catch. run_state. rewrite Hdec. run_state.
    rewrite Hexp. run_state. rewrite Hpast. reflexivity. }
  unfold exec. rewrite Hrun. done.
Qed.

(** A page opened at [now] with the token [h.eyJleHAiOjB9] in storage,
    whose second segment is the base64 text of [{"exp":0}]. *)
Definition expired_token : string := "h.eyJleHAiOjB9".

Definition opened_with_expired : State :=
  set_mainContent HomePage
    (set_currentPage "home"
       (constructed {[ authToken := expired_token ]} 1700000000123)).

Lemma expired_credential_not_cleared_witness :
  checkAuthStatus opened_with_expired = (Return tt, opened_with_expired) ∧
  localStorage (exec checkAuthStatus opened_with_expired) !! authToken =
    Some expired_token ∧
  currentUser (exec checkAuthStatus opened_with_expired) =
    currentUser opened_with_expired.
Proof.
  apply (expired_credential_not_cleared opened_with_expired expired_token
           (JObj [(units "exp", JNum 0 0)]) (Some (JNum 0 0))).
  - reflexivity.
  - discriminate.
  - reflexivity.
  - reflexivity.
  - reflexivity.
Defined.

(** C2 at a concrete input: the expired token is still stored after the
    page has loaded, and no session was adopted. *)
Lemma expired_token_survives_load :
  let loaded := new_FloatChatApp {[ authToken := expired_token ]} 1700000000123 in
  (JS.atob "eyJleHAiOjB9" ≫= JSON.parse) = Some (JObj [(units "exp", JNum 0 0)]) ∧
  currentUser loaded = None ∧
  localStorage loaded !! authToken = Some expired_token.
Proof. vm_compute. done. Qed.

(** ** Frame: what the methods leave alone *)

Section Preserves.

Context {X : Type} (proj : State → X).

(** A computation never changes the [proj] part of the state, however it
    ends. *)
Definition preserves {A} (m : M A) : Prop := ∀ s, proj (m s).2 = proj s.

Lemma preserves_ret {A} (a : A) : preserves (mret a).
Proof. intros s. reflexivity. Qed.

Lemma preserves_get : preserves get.
Proof. intros s. reflexivity. Qed.

Lemma preserves_Date_now : preserves Date_now.
Proof. intros s. reflexivity. Qed.

Lemma preserves_throw {A} (e : Error) : preserves (@throw A e).
Proof. intros s. reflexivity. Qed.

Lemma preserves_modify (f : State → State) :
  (∀ s, proj (f s) = proj s) → preserves (modify f).
Proof. intros H s. apply H. Qed.

Lemma preserves_bind {A B} (m : M A) (f : A → M B) :
  preserves m → (∀ a, preserves (f a)) → preserves (m ≫= f).
Proof.
  intros Hm Hf s. rewrite bind_eq. specialize (Hm s).
  destruct (m s) as [[a | e] s']; cbn in *.
  - rewrite <- Hm. apply Hf.
  - exact Hm.
Qed.

Lemma preserves_try_catch (body handler : M unit) :
  preserves body → preserves handler → preserves (try_catch body handler).
Proof.
  intros Hb Hh s. unfold try_catch. specialize (Hb s).
  destruct (body s) as [[[] | e] s']; cbn in *.
  - exact Hb.
  - rewrite <- Hb. apply Hh.
Qed.

End Preserves.

(** Splits a method body along its binds, branches and matches. *)
Ltac frame_step :=
  first
    [ apply preserves_ret
    | apply preserves_get
    | apply preserves_Date_now
    | apply preserves_throw
    | apply preserves_modify; intros ?; reflexivity
    | apply preserves_bind; [| intros ?]
    | apply preserves_try_catch
    | match goal with
      | |- preserves _ (match ?x with _ => _ end) => destruct x
      | |- preserves _ (if ?b then _ else _) => destruct b
      end ].

Ltac frame := repeat frame_step.

Section MethodsPreserve.

Context {X : Type} (proj : State → X).

(** The part looked at is a field that only [set_chatHistory] could touch,
    or none: every other setter leaves it. *)
Hypothesis proj_currentUser : ∀ v s, proj (set_currentUser v s) = proj s.
Hypothesis proj_currentPage : ∀ v s, proj (set_currentPage v s) = proj s.
Hypothesis proj_localStorage : ∀ v s, proj (set_localStorage v s) = proj s.
Hypothesis proj_clock : ∀ v s, proj (set_clock v s) = proj s.
Hypothesis proj_mainContent : ∀ v s, proj (set_mainContent v s) = proj s.
Hypothesis proj_loginBtnHidden : ∀ v s, proj (set_loginBtnHidden v s) = proj s.
Hypothesis proj_logoutBtnHidden : ∀ v s, proj (set_logoutBtnHidden v s) = proj s.
Hypothesis proj_authModalHidden : ∀ v s, proj (set_authModalHidden v s) = proj s.
Hypothesis proj_modalBody : ∀ v s, proj (set_modalBody v s) = proj s.
Hypothesis proj_nodes : ∀ v s, proj (set_nodes v s) = proj s.
Hypothesis proj_timers : ∀ v s, proj (set_timers v s) = proj s.
Hypothesis proj_alerts : ∀ v s, proj (set_alerts v s) = proj s.

Ltac setters :=
  first
    [ apply preserves_modify; intros ?;
      first [ apply proj_currentUser | apply proj_currentPage
            | apply proj_localStorage | apply proj_clock
            | apply proj_mainContent | apply proj_loginBtnHidden
            | apply proj_logoutBtnHidden | apply proj_authModalHidden
            | apply proj_modalBody | apply proj_nodes | apply proj_timers
            | apply proj_alerts ]
    | frame_step ].

Ltac body := repeat setters.

Lemma preserves_append_html r f : preserves proj (append_html r f).
Proof. unfold append_html. body. Qed.

Lemma preserves_set_html r f : preserves proj (set_html r f).
Proof. unfold set_html. body. Qed.

Lemma preserves_create_element h : preserves proj (create_element h).
Proof. unfold create_element. body. Qed.

Lemma preserves_setTimeout c d : preserves proj (setTimeout c d).
Proof. unfold setTimeout. body. Qed.

Lemma preserves_get_property v k : preserves proj (get_property v k).
Proof. unfold get_property. body. Qed.

Lemma preserves_updateNavigation : preserves proj updateNavigation.
Proof. unfold updateNavigation. body. Qed.

Lemma preserves_set_user_content c : preserves proj (set_user_content c).
Proof. unfold set_user_content. body. Qed.

Lemma preserves_set_admin_content c : preserves proj (set_admin_content c).
Proof. unfold set_admin_content. body. Qed.

Lemma preserves_renderUserProfile : preserves proj renderUserProfile.
Proof.
  unfold renderUserProfile.
  repeat first [apply preserves_get_property | setters].
Qed.

Lemma preserves_showUserContent type : preserves proj (showUserContent type).
Proof.
  unfold showUserContent.
  repeat first [ apply preserves_create_element | apply preserves_set_user_content
               | apply preserves_setTimeout | apply preserves_renderUserProfile
               | setters ].
Qed.

Lemma preserves_showAdminContent type : preserves proj (showAdminContent type).
Proof.
  unfold showAdminContent.
  repeat first [ apply preserves_create_element | apply preserves_set_admin_content
               | setters ].
Qed.

Lemma preserves_showAuthModal : preserves proj showAuthModal.
Proof. unfold showAuthModal. body. Qed.

Lemma preserves_hideModal : preserves proj hideModal.
Proof. unfold hideModal. body. Qed.

Lemma preserves_showPage page : preserves proj (showPage page).
Proof.
  unfold showPage.
  repeat first [ apply preserves_showAuthModal | apply preserves_showUserContent
               | apply preserves_showAdminContent | setters ].
Qed.

Lemma preserves_removeItem k : preserves proj (removeItem k).
Proof. unfold removeItem. body. Qed.

Lemma preserves_setItem k v : preserves proj (setItem k v).
Proof. unfold setItem. body. Qed.

Lemma preserves_decode_token token : preserves proj (decode_token token).
Proof. unfold decode_token. body. Qed.


Lemma preserves_handleLogin : preserves proj handleLogin.
Proof.
  unfold handleLogin.
  repeat first [ apply preserves_setItem | apply preserves_hideModal
               | apply preserves_updateNavigation | apply preserves_showPage
               | setters ].
Qed.

Lemma preserves_logout : preserves proj logout.
Proof.
  unfold logout.
  repeat first [ apply preserves_removeItem | apply preserves_updateNavigation
               | apply preserves_showPage | setters ].
Qed.

Lemma preserves_set_chatInput v : preserves proj (set_chatInput v).
Proof. unfold set_chatInput. body. Qed.

Lemma preserves_initializeMap : preserves proj initializeMap.
Proof.
  unfold initializeMap. repeat first [apply preserves_set_user_content | setters].
Qed.

Lemma preserves_set_updateStatus st : preserves proj (set_updateStatus st).
Proof. unfold set_updateStatus. body. Qed.

Lemma preserves_updateChatbotDB : preserves proj updateChatbotDB.
Proof.
  unfold updateChatbotDB. repeat first [apply preserves_set_updateStatus | setters].
Qed.

Lemma preserves_convertNCFiles : preserves proj convertNCFiles.
Proof.
  unfold convertNCFiles.
  repeat first [apply preserves_set_html | apply preserves_setTimeout | setters].
Qed.

Lemma preserves_finishConversion st rs files :
  preserves proj (finishConversion st rs files).
Proof. unfold finishConversion. repeat first [apply preserves_set_html | setters]. Qed.


Lemma preserves_run_callback c : preserves proj (run_callback c).
Proof.
  unfold run_callback. destruct c.
  - apply preserves_append_html.
  - apply preserves_initializeMap.
  - apply preserves_finishConversion.
Qed.

Lemma preserves_fire i : preserves proj (fire i).
Proof. unfold fire. repeat first [apply preserves_run_callback | setters]. Qed.

Lemma preserves_type_username v : preserves proj (type_username v).
Proof. unfold type_username. body. Qed.

Lemma preserves_type_password v : preserves proj (type_password v).
Proof. unfold type_password. body. Qed.

Lemma preserves_type_trainingData v : preserves proj (type_trainingData v).
Proof. unfold type_trainingData. body. Qed.

Lemma preserves_choose_files l : preserves proj (choose_files l).
Proof. unfold choose_files. body. Qed.

End MethodsPreserve.

(** ** C8: the float list *)




Lemma run_snoc (s : State) (es : list Event) (e : Event) :
  run s (es ++ [e]) = step (run s es) e.
Proof. unfold run. by rewrite foldl_app. Qed.



(** ** The HTML parser on the markup of the transcript *)

Module HTML_facts.
Import HTML.
Local Open Scope N_scope.



















(** *** The tree builder on the tokens of a tree *)














(** *** Markup appended to a well-formed tree *)


Lemma join_nil (t : list Node) : join t [] = t.
Proof.
  induction t as [| n t IH]; [done |]. cbn [join]. rewrite IH.
  by destruct t, n.
Qed.





Definition head_text (l : list Node) : bool :=
  match l with n :: _ => is_text n | [] => false end.




(** *** Inert text *)










End HTML_facts.

Import HTML_facts.

(** The element that the template of a chat message is the markup of, and
    the children it is parsed to, when [text] is inert: the element between
    the white space around it. *)
Definition message_element (indent : nat) (sender text : string) : HTML.Node :=
  HTML.Element HTML.Div (Some (units ("message " +:+ sender)))
    [HTML.Text (units (nl +:+ spaces (indent + 4)));
     HTML.Element HTML.P None [HTML.Text (units text)];
     HTML.Text (units (nl +:+ spaces indent))].

Definition message_nodes (indent : nat) (sender text : string) : list HTML.Node :=
  [HTML.Text (units (nl +:+ spaces indent));
   message_element indent sender text;
   HTML.Text (units (nl +:+ spaces (indent - 4)))].

Lemma units_app (a b : string) : units (a +:+ b) = units a ++ units b.
Proof.
  unfold units. induction a as [| c a IH]; [done |].
  change (String c a +:+ b) with (String c (a +:+ b)).
  cbn [String.list_ascii_of_string fmap list_fmap] in *. by rewrite IH.
Qed.






Example greeting_parsed :
  parsed greeting_markup = Children (message_nodes 24 "bot" greeting) ∧
  HTML.well_formed (message_nodes 24 "bot" greeting) = true.
Proof. split; vm_compute; reflexivity. Qed.

(** *** The replies are inert *)

(** Text without [<] and [&] at all. *)
Definition plain (d : ustring) : bool :=
  forallb (λ c, negb ((c =? 0) || (c =? 13) || (c =? 38) || (c =? 60))%N) d.

Lemma plain_inert (d : ustring) : plain d = true → HTML.inert d = true.
Proof.
  induction d as [| c d IH]; [done |]. cbn [plain forallb HTML.inert].
  intros [Hc Hd]%andb_prop. rewrite (IH Hd).
  apply negb_true_iff in Hc.
  apply orb_false_elim in Hc as [[Hc H38]%orb_false_elim H60].
  rewrite Hc. unfold HTML.opens_markup. rewrite H38, H60. by destruct d.
Qed.

Lemma plain_app (a b : string) :
  plain (units (a +:+ b)) = plain (units a) && plain (units b).
Proof. rewrite units_app. apply forallb_app. Qed.

Lemma plain_show_nat (n : nat) : plain (units (show_nat n)) = true.
Proof.
  unfold show_nat.
  assert (H : ∀ u, plain (units (NilEmpty.string_of_uint u)) = true)
    by (induction u; done).
  destruct (Nat.to_uint n); first [done | apply H].
Qed.

Ltac plain_text :=
  repeat (rewrite plain_app; apply andb_true_intro; split);
  first [apply plain_show_nat | reflexivity].

Lemma responses_plain (this : State) :
  Forall (λ e, plain (units e.2) = true ∧ e.2 ≠ "") (responses this).
Proof.
  unfold responses.
  repeat (constructor; [split; [cbn [snd]; plain_text | cbn [snd]; discriminate] |]).
  constructor.
Qed.

Lemma first_match_Forall (Q : string → Prop) (q : string)
    (entries : list (string * string)) (r : string) :
  Forall (λ e, Q e.2) entries → first_match q entries = Some r → Q r.
Proof.
  induction 1 as [| [k x] l Hx _ IH]; [done |]. cbn.
  destruct (JS.includes q k); [by intros [= <-] | exact IH].
Qed.

Lemma reply_plain (this : State) (query : string) :
  plain (units (generateChatResponse this query)) = true ∧
  generateChatResponse this query ≠ "".
Proof.
  unfold generateChatResponse.
  destruct (first_match _ _) as [r |] eqn:Hr.
  - exact (first_match_Forall (λ r, plain (units r) = true ∧ r ≠ "") _ _ _
             (responses_plain this) Hr).
  - split; [reflexivity | discriminate].
Qed.


(** ** C7 and C10: a chat exchange *)

(** The markup that [sendChatMessage] appends for the message at once and
    for the reply from its timer. *)
Definition user_markup (message : string) : string :=
  message_template 12 "user" message.






Definition reply_timer (s : State) (r : ref) (reply : string) : Timer :=
  {| due := clock s + 1000; callback := AppendBotReply r reply |}.

(** The state an accepted message leaves. *)
Definition sent (s : State) (r : ref) (message : string) : State :=
  let reply := generateChatResponse s message in
  set_mainContent (UserDashboard (Some (ChatInterface r "")))
    (set_chatHistory
       (chatHistory s ++
        [{| user := message; bot := reply; timestamp := clock s |}])
       (set_timers (timers s ++ [reply_timer s r reply])
          (set_nodes (alter (append_markup (user_markup message)) r (nodes s)) s))).

Lemma sendChatMessage_accepted (s : State) (r : ref) (v : string) :
  mainContent s = UserDashboard (Some (ChatInterface r v)) →
  JS.trim v ≠ "" →
  sendChatMessage s = (Return tt, sent s r (JS.trim v)).
Proof.
  intros Hmain Hne. unfold sendChatMessage. run_state. rewrite Hmain.
  destruct (decide _) as [| _]; [done |].
  unfold append_html, setTimeout, set_chatInput. run_state.
  rewrite Hmain. reflexivity.
Qed.


Lemma fire_early (s : State) (i : nat) (t : Timer) :
  timers s !! i = Some t → clock s < due t → fire i s = (Return tt, s).
Proof.
  intros Hi Hearly. unfold fire. run_state. rewrite Hi.
  destruct (decide _) as [Hle | _]; [lia | reflexivity].
Qed.


Lemma delete_last {A} (l : list A) (x : A) : delete (length l) (l ++ [x]) = l.
Proof. rewrite delete_middle. apply app_nil_r. Qed.

(** A message typed into the chat of a logged-in user. *)
Definition asking : State := typed "  hello float  ".





Example chat_exchange_run :
  HTML.elements (message_nodes 24 "bot" greeting) =
    [message_element 24 "bot" greeting] ∧
  nodes (run asking [SendChatMessage; Elapse 999; Fire 0; Elapse 1; Fire 0]) =
    [Children (HTML.join
                 (HTML.join (message_nodes 24 "bot" greeting)
                    (message_nodes 12 "user" "hello float"))
                 (message_nodes 16 "bot" float_paragraph))] ∧
  nodes (run asking [SendChatMessage; Elapse 999; Fire 0]) =
    [Children (HTML.join (message_nodes 24 "bot" greeting)
                 (message_nodes 12 "user" "hello float"))].
Proof. split; [reflexivity |]. split; vm_compute; reflexivity. Qed.

Lemma sendChatMessage_cases (s : State) :
  exec sendChatMessage s = s ∨
  ∃ r v, mainContent s = UserDashboard (Some (ChatInterface r v)) ∧
         JS.trim v ≠ "" ∧ exec sendChatMessage s = sent s r (JS.trim v).
Proof.
  destruct (mainContent s) as [| | | | [[r v | | |] |] |] eqn:Hmain;
    try (left; unfold exec, sendChatMessage; run_state; rewrite Hmain; reflexivity).
  destruct (decide (JS.trim v = "")) as [Hblank | Hne].
  - left. unfold exec. by rewrite (sendChatMessage_returns_early s r v Hmain Hblank).
  - right. exists r, v. split; [done |]. split; [done |].
    unfold exec. by rewrite (sendChatMessage_accepted s r v Hmain Hne).
Qed.








Example chatHistory_before_timer :
  chatHistory (run asking [SendChatMessage]) =
    [{| user := "hello float"; bot := float_paragraph; timestamp := 1700000000123 |}] ∧
  nodes (run asking [SendChatMessage]) =
    [append_markup (user_markup "hello float") (parsed greeting_markup)] ∧
  timers (run asking [SendChatMessage]) =
    [{| due := 1700000001123; callback := AppendBotReply 0 float_paragraph |}].
Proof. repeat split; reflexivity. Qed.

(** ** The chat element of a reachable state *)

(** The chat shown refers to an element of the store. *)
Definition chat_stored (s : State) : Prop :=
  ∀ r v, mainContent s = UserDashboard (Some (ChatInterface r v)) →
         (r < length (nodes s))%nat.

Definition maintains {A} (m : M A) : Prop :=
  ∀ s, chat_stored s → chat_stored (m s).2.

Lemma maintains_ret {A} (a : A) : maintains (mret a).
Proof. intros s H. exact H. Qed.

Lemma maintains_get : maintains get.
Proof. intros s H. exact H. Qed.

Lemma maintains_Date_now : maintains Date_now.
Proof. intros s H. exact H. Qed.

Lemma maintains_throw {A} (e : Error) : maintains (@throw A e).
Proof. intros s H. exact H. Qed.

Lemma maintains_bind {A B} (m : M A) (f : A → M B) :
  maintains m → (∀ a, maintains (f a)) → maintains (m ≫= f).
Proof.
  intros Hm Hf s Hs. rewrite bind_eq. specialize (Hm s Hs).
  destruct (m s) as [[a | e] s']; cbn in *; [by apply Hf | exact Hm].
Qed.

Lemma maintains_try_catch (body handler : M unit) :
  maintains body → maintains handler → maintains (try_catch body handler).
Proof.
  intros Hb Hh s Hs. unfold try_catch. specialize (Hb s Hs).
  destruct (body s) as [[[] | e] s']; cbn in *; [exact Hb | by apply Hh].
Qed.

(** A write that keeps the main content and does not shrink the store. *)
Lemma maintains_modify_frame (f : State → State) :
  (∀ s, mainContent (f s) = mainContent s) →
  (∀ s, (length (nodes s) ≤ length (nodes (f s)))%nat) →
  maintains (modify f).
Proof.
  intros Hmain Hlen s Hs r v Hshown. cbn in *. rewrite Hmain in Hshown.
  specialize (Hs r v Hshown). specialize (Hlen s). lia.
Qed.

(** A main content other than the chat. *)
Definition not_chat (c : MainContent) : Prop :=
  ∀ r v, c ≠ UserDashboard (Some (ChatInterface r v)).

Lemma maintains_set_mainContent (c : MainContent) :
  not_chat c → maintains (modify (set_mainContent c)).
Proof. intros Hc s _ r v Hshown. cbn in Hshown. by destruct (Hc r v). Qed.

Ltac keep_chat_step :=
  lazymatch goal with
  | |- maintains (mret _) => apply maintains_ret
  | |- maintains get => apply maintains_get
  | |- maintains Date_now => apply maintains_Date_now
  | |- maintains (throw _) => apply maintains_throw
  | |- maintains (modify (set_mainContent _)) =>
      apply maintains_set_mainContent; intros ? ?; discriminate
  | |- maintains (modify _) =>
      apply maintains_modify_frame;
        [ intros ?; reflexivity
        | intros ?; cbn; rewrite ?length_app, ?length_alter; lia ]
  | |- maintains (_ ≫= _) => apply maintains_bind; [| intros ?; cbn beta]
  | |- maintains (try_catch _ _) => apply maintains_try_catch
  | |- maintains (match ?x with _ => _ end) => destruct x
  | |- maintains (if ?b then _ else _) => destruct b
  end.

Ltac keep_chat := repeat keep_chat_step.

(** Small bodies are run case by case. *)
Ltac run_body :=
  unfold mbind, M_bind, get, modify, throw, mret, M_ret, Date_now, exec;
  cbn beta iota zeta;
  cbn [fst snd currentUser currentPage chatHistory argoFloats localStorage
       clock mainContent loginBtnHidden logoutBtnHidden authModalHidden
       modalBody nodes timers alerts
       set_currentUser set_currentPage set_chatHistory set_localStorage
       set_clock set_mainContent set_loginBtnHidden set_logoutBtnHidden
       set_authModalHidden set_modalBody set_nodes set_timers set_alerts].

Ltac run_cases Hs :=
  run_body;
  repeat (first [case_match | case_decide]; simplify_eq; run_body);
  try exact Hs;
  unfold chat_stored in *; cbn; intros ? ? Hshown; simplify_eq;
  rewrite ?length_app, ?length_alter; cbn;
  try first [ lia | (by eauto) | (pose proof (Hs _ _ Hshown); lia) ].

Lemma maintains_set_user_content (c : UserContent) :
  (∀ r v, c ≠ ChatInterface r v) → maintains (set_user_content c).
Proof.
  intros Hc. unfold set_user_content. keep_chat.
  all: apply maintains_set_mainContent; intros r v [= Heq]; by destruct (Hc r v).
Qed.

Lemma maintains_set_admin_content (c : AdminContent) :
  maintains (set_admin_content c).
Proof. unfold set_admin_content. keep_chat. Qed.

Lemma maintains_append_html r f : maintains (append_html r f).
Proof. unfold append_html. keep_chat. Qed.

Lemma maintains_set_html r f : maintains (set_html r f).
Proof. unfold set_html. keep_chat. Qed.

Lemma maintains_create_element h : maintains (create_element h).
Proof. intros s Hs. unfold create_element. run_cases Hs. Qed.

Lemma maintains_setTimeout c d : maintains (setTimeout c d).
Proof. unfold setTimeout. keep_chat. Qed.

Lemma maintains_get_property v k : maintains (get_property v k).
Proof. unfold get_property. keep_chat. Qed.

Lemma maintains_updateNavigation : maintains updateNavigation.
Proof. unfold updateNavigation. keep_chat. Qed.

Lemma maintains_renderUserProfile : maintains renderUserProfile.
Proof. unfold renderUserProfile. repeat first [apply maintains_get_property | keep_chat]. Qed.

(** The new chat interface refers to the element just created for it. *)
Lemma maintains_showUserContent type : maintains (showUserContent type).
Proof.
  intros s Hs.
  unfold showUserContent, renderUserProfile, get_property, create_element,
    set_user_content, setTimeout.
  run_cases Hs.
Qed.

Ltac keep_chat_with :=
  repeat first
    [ apply maintains_setTimeout | apply maintains_create_element
    | apply maintains_append_html | apply maintains_set_html
    | apply maintains_get_property | apply maintains_updateNavigation
    | apply maintains_set_admin_content
    | apply maintains_set_user_content; intros ? ?; discriminate
    | apply maintains_showUserContent
    | keep_chat ].

Lemma maintains_showAdminContent type : maintains (showAdminContent type).
Proof. unfold showAdminContent. keep_chat_with. Qed.

Lemma maintains_showAuthModal : maintains showAuthModal.
Proof. unfold showAuthModal. keep_chat. Qed.

Lemma maintains_hideModal : maintains hideModal.
Proof. unfold hideModal. keep_chat. Qed.

Lemma maintains_showPage page : maintains (showPage page).
Proof.
  unfold showPage.
  repeat first [ apply maintains_showAuthModal | apply maintains_showAdminContent
               | keep_chat_with ].
Qed.

Lemma maintains_removeItem k : maintains (removeItem k).
Proof. unfold removeItem. keep_chat. Qed.

Lemma maintains_setItem k v : maintains (setItem k v).
Proof. unfold setItem. keep_chat. Qed.

Lemma maintains_decode_token token : maintains (decode_token token).
Proof. unfold decode_token. keep_chat. Qed.

Lemma maintains_checkAuthStatus : maintains checkAuthStatus.
Proof.
  unfold checkAuthStatus.
  repeat first [ apply maintains_decode_token | apply maintains_removeItem
               | keep_chat_with ].
Qed.

Lemma maintains_handleLogin : maintains handleLogin.
Proof.
  unfold handleLogin.
  repeat first [ apply maintains_setItem | apply maintains_hideModal
               | apply maintains_showPage | keep_chat_with ].
Qed.

Lemma maintains_logout : maintains logout.
Proof.
  unfold logout.
  repeat first [ apply maintains_removeItem | apply maintains_showPage
               | keep_chat_with ].
Qed.

Lemma maintains_set_chatInput v : maintains (set_chatInput v).
Proof. intros s Hs. unfold set_chatInput. run_cases Hs. Qed.

Lemma maintains_sendChatMessage : maintains sendChatMessage.
Proof.
  intros s Hs.
  destruct (sendChatMessage_cases s) as [Hsame | (r & v & Hmain & _ & Hsent)];
    unfold exec in *; [by rewrite Hsame |].
  rewrite Hsent. intros r' v' [= <- _]. cbn. rewrite length_alter. eauto.
Qed.

Lemma maintains_initializeMap : maintains initializeMap.
Proof. unfold initializeMap. keep_chat_with. Qed.

Lemma maintains_set_updateStatus st : maintains (set_updateStatus st).
Proof. unfold set_updateStatus. keep_chat. Qed.

Lemma maintains_updateChatbotDB : maintains updateChatbotDB.
Proof.
  unfold updateChatbotDB. repeat first [apply maintains_set_updateStatus | keep_chat].
Qed.

Lemma maintains_convertNCFiles : maintains convertNCFiles.
Proof. unfold convertNCFiles. keep_chat_with. Qed.

Lemma maintains_finishConversion st rs files :
  maintains (finishConversion st rs files).
Proof. unfold finishConversion. keep_chat_with. Qed.

Lemma maintains_init : maintains init.
Proof.
  unfold init.
  repeat first [apply maintains_showPage | apply maintains_checkAuthStatus | keep_chat].
Qed.

Lemma maintains_fire i : maintains (fire i).
Proof.
  unfold fire, run_callback.
  repeat first [ apply maintains_initializeMap | apply maintains_finishConversion
               | keep_chat_with ].
Qed.

Lemma maintains_handler (e : Event) : e ≠ Reload → maintains (handler e).
Proof.
  intros Hne. destruct e; cbn [handler]; try done;
    unfold type_username, type_password, type_trainingData, choose_files;
    repeat first
      [ apply maintains_showPage | apply maintains_hideModal
      | apply maintains_logout | apply maintains_handleLogin
      | apply maintains_showAdminContent | apply maintains_set_chatInput
      | apply maintains_sendChatMessage | apply maintains_updateChatbotDB
      | apply maintains_convertNCFiles | apply maintains_fire
      | keep_chat_with ].
Qed.

Lemma chat_stored_new_FloatChatApp (storage : gmap string string) (now : Z) :
  chat_stored (new_FloatChatApp storage now).
Proof.
  apply maintains_init. intros r v Hshown. discriminate Hshown.
Qed.

(** In every state the page can reach, the chat that is shown has its
    transcript element in the store. *)
Lemma chat_stored_run (storage : gmap string string) (now : Z) (es : list Event) :
  chat_stored (run (new_FloatChatApp storage now) es).
Proof.
  induction es as [| e es IH] using rev_ind.
  - apply chat_stored_new_FloatChatApp.
  - rewrite run_snoc.
    assert (e = Reload ∨ e ≠ Reload) as [-> | Hne]
      by (destruct e; (by left) || (by right)).
    + apply chat_stored_new_FloatChatApp.
    + by apply maintains_handler.
Qed.

Corollary reachable_chat_has_transcript
    (storage : gmap string string) (now : Z) (es : list Event) (r : ref) (v : string) :
  mainContent (run (new_FloatChatApp storage now) es) =
    UserDashboard (Some (ChatInterface r v)) →
  ∃ transcript, nodes (run (new_FloatChatApp storage now) es) !! r = Some transcript.
Proof.
  intros Hshown. apply lookup_lt_is_Some_2.
  by eapply chat_stored_run.
Qed.

(** ** What the parser builds is well-formed *)

Module HTML_trees.
Import HTML HTML_facts.
Local Open Scope N_scope.

Definition last_text (l : list Node) : bool := head_text (rev l).

Lemma head_text_app (l : list Node) (x : Node) :
  head_text (l ++ [x]) = match l with [] => is_text x | n :: _ => is_text n end.
Proof. by destruct l. Qed.

Lemma last_text_cons (n : Node) (l : list Node) :
  last_text (n :: l) = match l with [] => is_text n | _ => last_text l end.
Proof.
  unfold last_text. destruct l as [| m l]; [done |].
  change (rev (n :: m :: l)) with (rev (m :: l) ++ [n]). rewrite head_text_app.
  destruct (rev (m :: l)) eqn:H; [| done].
  apply (f_equal length) in H. by rewrite length_rev in H.
Qed.

Lemma separated_cons (n : Node) (l : list Node) :
  separated (n :: l) = negb (is_text n && head_text l) && separated l.
Proof. by destruct l. Qed.

Lemma separated_snoc (l : list Node) (x : Node) :
  separated (l ++ [x]) = separated l && negb (last_text l && is_text x).
Proof.
  induction l as [| n l IH]; [cbn; by rewrite andb_false_r |].
  change ((n :: l) ++ [x]) with (n :: (l ++ [x])).
  rewrite !separated_cons, IH, head_text_app, last_text_cons.
  destruct l as [| m l].
  - cbn. by destruct (is_text n), (is_text x).
  - cbn [head_text]. by rewrite andb_assoc.
Qed.

Lemma separated_rev (l : list Node) : separated (rev l) = separated l.
Proof.
  induction l as [| n l IH]; [done |]. cbn [rev].
  rewrite separated_snoc, separated_cons, IH.
  unfold last_text. rewrite rev_involutive.
  by destruct (is_text n), (head_text l), (separated l).
Qed.

Lemma forallb_rev {A} (f : A → bool) (l : list A) : forallb f (rev l) = forallb f l.
Proof.
  induction l as [| x l IH]; [done |]. cbn [rev forallb].
  rewrite forallb_app, IH. cbn. by rewrite andb_true_r, andb_comm.
Qed.

(** *** The tokens *)

Definition token_ok (t : Token) : bool :=
  match t with
  | Character c => negb (bool_decide (c = 0) || bool_decide (c = 13))
  | StartTag _ (Some v) => safe_value v
  | _ => true
  end.

Definition state_ok (st : TState) : bool :=
  match st with
  | AttributeValue _ v | AfterAttributeValue _ v => safe_value v
  | _ => true
  end.

Lemma reference_ok (name : ustring) (c : N) :
  reference name = Some c → token_ok (Character c) = true.
Proof.
  unfold reference. repeat case_decide; intros [=]; by subst.
Qed.

Lemma unit_ok (c : N) :
  (c =? 0) || (c =? 13) = false → token_ok (Character c) = true.
Proof.
  intros [H0 H13]%orb_false_elim. apply N.eqb_neq in H0, H13. cbn.
  by rewrite !bool_decide_false.
Qed.

Lemma data_ok (c : N) :
  (c =? 0) || (c =? 13) = false →
  state_ok (data c).1 = true ∧ forallb token_ok (data c).2 = true.
Proof.
  intros Hc. unfold data. destruct (c =? 38); [done |]. destruct (c =? 60); [done |].
  cbn [fst snd forallb]. by rewrite (unit_ok c Hc).
Qed.

Lemma safe_value_snoc (v : ustring) (c : N) :
  safe_value v = true →
  (c =? 0) || (c =? 13) = false → (c =? 34) = false →
  (c =? 38) || (c =? 60) || (c =? 62) || (c =? 160) = false →
  safe_value (v ++ [c]) = true.
Proof.
  intros Hv [H0 H13]%orb_false_elim H34 H.
  apply orb_false_elim in H as [[[H38 H60]%orb_false_elim H62]%orb_false_elim H160].
  unfold safe_value in *. rewrite forallb_app, Hv. cbn.
  by rewrite H0, H13, H34, H38, H60, H62, H160.
Qed.

Lemma step_ok (st st' : TState) (c : N) (out : list Token) :
  state_ok st = true → step st c = Some (st', out) →
  state_ok st' = true ∧ forallb token_ok out = true.
Proof.
  intros Hst. unfold step.
  destruct ((c =? 0) || (c =? 13)) eqn:Hc; [done |].
  destruct (data_ok c Hc) as [Hd1 Hd2].
  destruct st; cbn [state_ok] in Hst;
    repeat match goal with
           | |- context [if ?b then _ else _] => destruct b eqn:?
           | |- context [tag_of ?n] => destruct (tag_of n)
           | |- context [reference ?n] => destruct (reference n) eqn:?
           end;
    cbn [mbind option_bind]; intros [=]; subst;
    try match goal with H : data c = _ |- _ => rewrite H in * end;
    cbn [state_ok forallb fst snd] in *; rewrite ?Hd2, ?andb_true_r;
    try done; try (by eauto using safe_value_snoc);
    try (split; [done |]; eapply reference_ok; eassumption).
Qed.

Lemma tokens_ok (input : ustring) (st : TState) (toks : list Token) :
  state_ok st = true → tokens st input = Some toks → forallb token_ok toks = true.
Proof.
  revert st toks. induction input as [| c r IH]; intros st toks Hst; cbn [tokens].
  - destruct st; intros [=]; by subst.
  - destruct (step st c) as [[st' out] |] eqn:Hstep; [| done].
    destruct (step_ok _ _ _ _ Hst Hstep) as [Hst' Hout].
    destruct (tokens st' r) as [rest |] eqn:Hrest; [| done].
    intros [= <-]. by rewrite forallb_app, Hout, (IH _ _ Hst' Hrest).
Qed.

(** *** The tree builder *)

Definition kids_ok (k : list Node) : bool :=
  forallb well_formed_node k && separated k.

Definition class_ok (c : option ustring) : bool :=
  match c with Some v => safe_value v | None => true end.

Definition text_only (t : Tag) (k : list Node) : bool :=
  match t with P => forallb is_text k | Div => true end.

(** An open element: its children so far are well-formed, and a [p] has
    text only. *)
Definition open_ok (o : Open) : bool :=
  class_ok (class o) && kids_ok (content o) && text_only (tag o) (content o).

Definition all_div (s : list Open) : bool :=
  forallb (λ o, bool_decide (tag o = Div)) s.

(** The stack while the parser runs: a [p] is open at the top only. *)
Definition builder_ok (b : Builder) : bool :=
  forallb open_ok b.1 && kids_ok b.2 && all_div (tail b.1).

(** The element popped last, on its way into the next one down. *)
Definition carry_ok (last : list Node) (s : list Open) : Prop :=
  match last with
  | [] => True
  | [e] => well_formed_node e = true ∧ is_text e = false ∧ all_div s = true
  | _ => False
  end.

Lemma well_formed_element (t : Tag) (c : option ustring) (kids : list Node) :
  well_formed_node (Element t c kids) =
    class_ok c && kids_ok kids && text_only t kids.
Proof. cbn [well_formed_node]. unfold kids_ok, class_ok, text_only. by rewrite andb_assoc. Qed.

Lemma kids_ok_rev (k : list Node) : kids_ok (rev k) = kids_ok k.
Proof. unfold kids_ok. by rewrite forallb_rev, separated_rev. Qed.

Lemma kids_ok_element (e : Node) (k : list Node) :
  well_formed_node e = true → is_text e = false → kids_ok k = true →
  kids_ok (e :: k) = true.
Proof.
  unfold kids_ok. intros He Ht [Hk Hs]%andb_prop. rewrite separated_cons.
  cbn [forallb]. by rewrite He, Ht, Hk, Hs.
Qed.

Lemma closed_ok (o : Open) (last : list Node) (s : list Open) :
  open_ok o = true → carry_ok last (o :: s) →
  well_formed_node (closed o last) = true ∧ is_text (closed o last) = false.
Proof.
  intros [[Hc Hk]%andb_prop Ht]%andb_prop Hlast. split; [| done].
  unfold closed. rewrite well_formed_element, Hc, kids_ok_rev.
  destruct last as [| e [| e' last]]; [| | done].
  - cbn [app]. rewrite Hk. destruct (tag o); [done |].
    cbn [text_only] in *. by rewrite forallb_rev.
  - destruct Hlast as (He & Hte & Hdiv). cbn [app all_div forallb] in *.
    apply andb_prop in Hdiv as [Ho%bool_decide_eq_true _]. rewrite Ho.
    by rewrite (kids_ok_element e _ He Hte Hk).
Qed.

Lemma all_div_in_current (f : list Node → list Node) (b : Builder) :
  all_div (in_current f b).1 = all_div b.1 ∧
  all_div (tail (in_current f b).1) = all_div (tail b.1).
Proof. by destruct b as [[| o s] root]. Qed.

(** A child added to the current node. *)
Lemma in_current_ok (f : list Node → list Node) (b : Builder) :
  builder_ok b = true →
  (∀ k, kids_ok k = true → kids_ok (f k) = true) →
  (∀ o s, b.1 = o :: s → tag o = P →
          forallb is_text (content o) = true → forallb is_text (f (content o)) = true) →
  builder_ok (in_current f b) = true.
Proof.
  destruct b as [[| o s] root]; unfold builder_ok; cbn [fst snd in_current tail forallb].
  - intros [[_ Hroot]%andb_prop _]%andb_prop Hf _. by rewrite (Hf _ Hroot).
  - intros [[[Ho Hs]%andb_prop Hroot]%andb_prop Hdiv]%andb_prop Hf Hp.
    rewrite Hs, Hroot, Hdiv, !andb_true_r.
    unfold open_ok in *. cbn [tag class content].
    apply andb_prop in Ho as [[Hc Hk]%andb_prop Ht].
    rewrite Hc, (Hf _ Hk). destruct (tag o) eqn:Htag; [done |].
    cbn [text_only andb] in *. by apply (Hp o s).
Qed.

Lemma add_element_ok (e : Node) (b : Builder) :
  builder_ok b = true →
  well_formed_node e = true → is_text e = false →
  all_div b.1 = true →
  builder_ok (in_current (cons e) b) = true.
Proof.
  intros Hb He Ht Hdiv. apply in_current_ok; [exact Hb | |].
  - intros k Hk. by apply kids_ok_element.
  - intros o s Hs Hp. rewrite Hs in Hdiv. cbn in Hdiv. rewrite Hp in Hdiv. done.
Qed.

Lemma pop_until_ok (t : Tag) (s : list Open) (last : list Node) (root : list Node) :
  forallb open_ok s = true → kids_ok root = true →
  all_div (tail s) = true → carry_ok last s →
  builder_ok (pop_until t last s root) = true ∧
  all_div (pop_until t last s root).1 = true.
Proof.
  revert last. induction s as [| o s IH]; intros last Hs Hroot Hdiv Hlast.
  - cbn [pop_until]. split; [| done]. unfold builder_ok. cbn [fst snd forallb tail all_div].
    rewrite andb_true_r. destruct last as [| e [| e' last]]; [done | | done].
    destruct Hlast as (He & Hte & _). by apply kids_ok_element.
  - cbn [forallb tail] in Hs, Hdiv. apply andb_prop in Hs as [Ho Hs].
    destruct (closed_ok o last s Ho Hlast) as [Hc Htc].
    assert (Hb : builder_ok (s, root) = true).
    { unfold builder_ok. cbn [fst snd]. rewrite Hs, Hroot. cbn.
      destruct s as [| o' s]; [done |]. cbn in Hdiv. by apply andb_prop in Hdiv as [_ ?]. }
    cbn [pop_until]. destruct (decide (tag o = t)) as [_ | _].
    + split; [by apply add_element_ok |].
      by rewrite (proj1 (all_div_in_current _ (s, root))).
    + apply IH; [exact Hs | exact Hroot | | done].
      destruct s as [| o' s]; [done |]. cbn in Hdiv. by apply andb_prop in Hdiv as [_ ?].
Qed.

Lemma in_scope_div (s : list Open) : in_scope P s = false → all_div s = true.
Proof.
  unfold in_scope, all_div. induction s as [| o s IH]; [done |]. cbn [existsb forallb].
  intros [Ho Hs]%orb_false_elim. rewrite (IH Hs), andb_true_r.
  apply bool_decide_eq_false in Ho. apply bool_decide_eq_true. by destruct (tag o).
Qed.

Lemma insert_character_ok (c : N) (k : list Node) :
  token_ok (Character c) = true → kids_ok k = true →
  kids_ok (insert_character c k) = true.
Proof.
  cbn [token_ok]. intros Hc%negb_true_iff [Hk Hs]%andb_prop.
  apply orb_false_elim in Hc as [H0%bool_decide_eq_false H13%bool_decide_eq_false].
  apply N.eqb_neq in H0, H13.
  unfold kids_ok, insert_character. destruct k as [| [d | t cl kids] k].
  - cbn. by rewrite H0, H13.
  - rewrite !separated_cons in *. cbn [forallb well_formed_node is_text] in *.
    apply andb_prop in Hk as [[_ Hd]%andb_prop Hk].
    rewrite Hk, Hs. unfold clean in *. rewrite forallb_app, Hd. cbn [forallb].
    rewrite H0, H13. cbn. rewrite bool_decide_false; [done | by destruct d].
  - rewrite separated_cons. cbn [forallb] in *. rewrite Hk, Hs.
    cbn. by rewrite H0, H13.
Qed.

Lemma insert_character_text (c : N) (k : list Node) :
  forallb is_text k = true → forallb is_text (insert_character c k) = true.
Proof. by destruct k as [| [d |] k]. Qed.

Lemma process_ok (b : Builder) (token : Token) :
  builder_ok b = true → token_ok token = true → builder_ok (process b token) = true.
Proof.
  intros Hb Htok.
  assert (Hparts : forallb open_ok b.1 = true ∧ kids_ok b.2 = true ∧
                   all_div (tail b.1) = true).
  { unfold builder_ok in Hb. by apply andb_prop in Hb as [[? ?]%andb_prop ?]. }
  destruct Hparts as (Hs & Hroot & Hdiv).
  assert (Hpop : ∀ t, builder_ok (pop_until t [] b.1 b.2) = true ∧
                      all_div (pop_until t [] b.1 b.2).1 = true)
    by (intros t; by apply pop_until_ok).
  destruct token as [c | t cl | t]; cbn [process].
  - apply in_current_ok; [exact Hb | |].
    + intros k. by apply insert_character_ok.
    + intros o s _ _. apply insert_character_text.
  - assert (Hnext : ∃ b', (if in_scope P b.1 then pop_until P [] b.1 b.2 else b) = b' ∧
                          builder_ok b' = true ∧ all_div b'.1 = true).
    { destruct (in_scope P b.1) eqn:Hp.
      - eexists. split; [reflexivity |]. apply Hpop.
      - eexists. split; [reflexivity |]. split; [exact Hb | by apply in_scope_div]. }
    destruct Hnext as (b' & -> & Hb' & Hdiv').
    unfold builder_ok in *. cbn [fst snd forallb tail].
    apply andb_prop in Hb' as [[Hs' Hroot']%andb_prop _].
    rewrite Hs', Hroot', Hdiv', !andb_true_r.
    unfold open_ok. cbn [tag class content]. cbn [token_ok] in Htok.
    rewrite andb_true_r. destruct cl, t; cbn; by rewrite ?Htok.
  - destruct t.
    + destruct (in_scope Div b.1); [apply Hpop | exact Hb].
    + destruct (in_scope P b.1) eqn:Hp; [apply Hpop |].
      apply add_element_ok; [exact Hb | done | done | by apply in_scope_div].
Qed.

Lemma close_all_ok (s : list Open) (last : list Node) (root : list Node) :
  forallb open_ok s = true → kids_ok root = true →
  all_div (tail s) = true → carry_ok last s →
  well_formed (close_all last s root) = true.
Proof.
  revert last. induction s as [| o s IH]; intros last Hs Hroot Hdiv Hlast.
  - cbn [close_all]. fold (kids_ok (rev (last ++ root))). rewrite kids_ok_rev.
    destruct last as [| e [| e' last]]; [done | | done].
    destruct Hlast as (He & Hte & _). by apply kids_ok_element.
  - cbn [forallb tail] in Hs, Hdiv. apply andb_prop in Hs as [Ho Hs].
    destruct (closed_ok o last s Ho Hlast) as [Hc Htc].
    cbn [close_all]. apply IH; [exact Hs | exact Hroot | | done].
    destruct s as [| o' s]; [done |]. cbn in Hdiv. by apply andb_prop in Hdiv as [_ ?].
Qed.

Lemma foldl_process_ok (toks : list Token) (b : Builder) :
  builder_ok b = true → forallb token_ok toks = true →
  builder_ok (foldl process b toks) = true.
Proof.
  revert b. induction toks as [| tok toks IH]; intros b Hb; [done |].
  cbn [forallb foldl]. intros [Htok Htoks]%andb_prop.
  apply IH; [by apply process_ok | exact Htoks].
Qed.

(** What the parser gives is a well-formed tree. *)
Lemma parse_well_formed (markup : ustring) (t : list Node) :
  parse markup = Some t → well_formed t = true.
Proof.
  unfold parse. destruct (tokens Data markup) as [toks |] eqn:Htoks; [| done].
  intros [= <-]. unfold build.
  pose proof (foldl_process_ok toks ([], []) eq_refl
                (tokens_ok markup Data toks eq_refl Htoks)) as Hb.
  unfold builder_ok in Hb. apply andb_prop in Hb as [[Hs Hroot]%andb_prop Hdiv].
  by apply close_all_ok.
Qed.

End HTML_trees.

(** ** The transcripts of a reachable state *)

(** The children of a stored element are a well-formed tree, where the
    model reads them. *)
Definition content_ok (c : Content) : Prop :=
  match c with
  | Children tree => HTML.well_formed tree = true
  | _ => True
  end.

Definition store_ok (s : State) : Prop := Forall content_ok (nodes s).

Definition keeps {A} (m : M A) : Prop := ∀ s, store_ok s → store_ok (m s).2.

Lemma parsed_ok (markup : string) : content_ok (parsed markup).
Proof.
  unfold parsed. destruct (HTML.parse _) as [t |] eqn:Ht; [| done].
  by apply HTML_trees.parse_well_formed in Ht.
Qed.

Lemma append_markup_ok (markup : string) (c : Content) :
  content_ok (append_markup markup c).
Proof.
  destruct c as [t | | |]; try done. unfold append_markup, HTML.append.
  destruct (HTML.parse _) as [t' |] eqn:Ht; [| done].
  by apply HTML_trees.parse_well_formed in Ht.
Qed.

Lemma keeps_ret {A} (a : A) : keeps (mret a).
Proof. intros s H. exact H. Qed.

Lemma keeps_get : keeps get.
Proof. intros s H. exact H. Qed.

Lemma keeps_Date_now : keeps Date_now.
Proof. intros s H. exact H. Qed.

Lemma keeps_throw {A} (e : Error) : keeps (@throw A e).
Proof. intros s H. exact H. Qed.

Lemma keeps_bind {A B} (m : M A) (f : A → M B) :
  keeps m → (∀ a, keeps (f a)) → keeps (m ≫= f).
Proof.
  intros Hm Hf s Hs. rewrite bind_eq. specialize (Hm s Hs).
  destruct (m s) as [[a | e] s']; cbn in *; [by apply Hf | exact Hm].
Qed.

Lemma keeps_try_catch (body handler : M unit) :
  keeps body → keeps handler → keeps (try_catch body handler).
Proof.
  intros Hb Hh s Hs. unfold try_catch. specialize (Hb s Hs).
  destruct (body s) as [[[] | e] s']; cbn in *; [exact Hb | by apply Hh].
Qed.

(** A write to another field. *)
Lemma keeps_modify (f : State → State) :
  (∀ s, nodes (f s) = nodes s) → keeps (modify f).
Proof. intros Hf s Hs. unfold store_ok. cbn. by rewrite Hf. Qed.

Lemma keeps_append_html (r : ref) (markup : string) : keeps (append_html r markup).
Proof.
  intros s Hs. unfold store_ok. cbn. apply Forall_alter; [exact Hs |].
  intros c _ _. apply append_markup_ok.
Qed.

Lemma keeps_set_html (r : ref) (c : Content) : content_ok c → keeps (set_html r c).
Proof.
  intros Hc s Hs. unfold store_ok. cbn. apply Forall_alter; [exact Hs | done].
Qed.

Lemma keeps_create_element (c : Content) : content_ok c → keeps (create_element c).
Proof.
  intros Hc s Hs. unfold store_ok. cbn. apply Forall_app. split; [exact Hs |].
  by constructor.
Qed.

Ltac keep_store_step :=
  lazymatch goal with
  | |- keeps (mret _) => apply keeps_ret
  | |- keeps get => apply keeps_get
  | |- keeps Date_now => apply keeps_Date_now
  | |- keeps (throw _) => apply keeps_throw
  | |- keeps (modify _) => apply keeps_modify; intros ?; reflexivity
  | |- keeps (append_html _ _) => apply keeps_append_html
  | |- keeps (set_html _ _) => apply keeps_set_html; exact I
  | |- keeps (create_element _) =>
      apply keeps_create_element; first [apply parsed_ok | reflexivity]
  | |- keeps (_ ≫= _) => apply keeps_bind; [| intros ?; cbn beta]
  | |- keeps (try_catch _ _) => apply keeps_try_catch
  | |- keeps (match ?x with _ => _ end) => destruct x
  | |- keeps (if ?b then _ else _) => destruct b
  end.

Ltac keep_store := repeat keep_store_step.

Lemma keeps_setTimeout c d : keeps (setTimeout c d).
Proof. unfold setTimeout. keep_store. Qed.

Lemma keeps_get_property v k : keeps (get_property v k).
Proof. unfold get_property. keep_store. Qed.

Lemma keeps_updateNavigation : keeps updateNavigation.
Proof. unfold updateNavigation. keep_store. Qed.

Lemma keeps_set_user_content c : keeps (set_user_content c).
Proof. unfold set_user_content. keep_store. Qed.

Lemma keeps_set_admin_content c : keeps (set_admin_content c).
Proof. unfold set_admin_content. keep_store. Qed.

Lemma keeps_renderUserProfile : keeps renderUserProfile.
Proof. unfold renderUserProfile. repeat first [apply keeps_get_property | keep_store]. Qed.

Ltac keep_store_with :=
  repeat first
    [ apply keeps_setTimeout | apply keeps_get_property
    | apply keeps_updateNavigation | apply keeps_set_admin_content
    | apply keeps_set_user_content | apply keeps_renderUserProfile
    | keep_store_step ].

Lemma keeps_showUserContent type : keeps (showUserContent type).
Proof. unfold showUserContent. keep_store_with. Qed.

Lemma keeps_showAdminContent type : keeps (showAdminContent type).
Proof. unfold showAdminContent. keep_store_with. Qed.

Lemma keeps_showAuthModal : keeps showAuthModal.
Proof. unfold showAuthModal. keep_store. Qed.

Lemma keeps_hideModal : keeps hideModal.
Proof. unfold hideModal. keep_store. Qed.

Lemma keeps_showPage page : keeps (showPage page).
Proof.
  unfold showPage.
  repeat first [ apply keeps_showAuthModal | apply keeps_showAdminContent
               | apply keeps_showUserContent | keep_store_with ].
Qed.

Lemma keeps_removeItem k : keeps (removeItem k).
Proof. unfold removeItem. keep_store. Qed.

Lemma keeps_setItem k v : keeps (setItem k v).
Proof. unfold setItem. keep_store. Qed.

Lemma keeps_decode_token token : keeps (decode_token token).
Proof. unfold decode_token. keep_store. Qed.

Lemma keeps_checkAuthStatus : keeps checkAuthStatus.
Proof.
  unfold checkAuthStatus.
  repeat first [ apply keeps_decode_token | apply keeps_removeItem
               | keep_store_with ].
Qed.

Lemma keeps_handleLogin : keeps handleLogin.
Proof.
  unfold handleLogin.
  repeat first [ apply keeps_setItem | apply keeps_hideModal
               | apply keeps_showPage | keep_store_with ].
Qed.

Lemma keeps_logout : keeps logout.
Proof.
  unfold logout.
  repeat first [ apply keeps_removeItem | apply keeps_showPage | keep_store_with ].
Qed.

Lemma keeps_set_chatInput v : keeps (set_chatInput v).
Proof. unfold set_chatInput. keep_store. Qed.

Lemma keeps_sendChatMessage : keeps sendChatMessage.
Proof.
  unfold sendChatMessage.
  repeat first [ apply keeps_set_chatInput | keep_store_with ].
Qed.

Lemma keeps_initializeMap : keeps initializeMap.
Proof. unfold initializeMap. keep_store_with. Qed.

Lemma keeps_set_updateStatus st : keeps (set_updateStatus st).
Proof. unfold set_updateStatus. keep_store. Qed.

Lemma keeps_updateChatbotDB : keeps updateChatbotDB.
Proof.
  unfold updateChatbotDB. repeat first [apply keeps_set_updateStatus | keep_store].
Qed.

Lemma keeps_convertNCFiles : keeps convertNCFiles.
Proof. unfold convertNCFiles. keep_store_with. Qed.

Lemma keeps_finishConversion st rs files : keeps (finishConversion st rs files).
Proof. unfold finishConversion. keep_store_with. Qed.

Lemma keeps_init : keeps init.
Proof.
  unfold init.
  repeat first [apply keeps_showPage | apply keeps_checkAuthStatus | keep_store].
Qed.

Lemma keeps_fire i : keeps (fire i).
Proof.
  unfold fire, run_callback.
  repeat first [ apply keeps_initializeMap | apply keeps_finishConversion
               | keep_store_with ].
Qed.

Lemma store_ok_new_FloatChatApp (storage : gmap string string) (now : Z) :
  store_ok (new_FloatChatApp storage now).
Proof. apply keeps_init. constructor. Qed.

Lemma keeps_handler (e : Event) : keeps (handler e).
Proof.
  destruct e; cbn [handler];
    unfold type_username, type_password, type_trainingData, choose_files;
    try (intros s _; apply store_ok_new_FloatChatApp);
    repeat first
      [ apply keeps_showPage | apply keeps_hideModal
      | apply keeps_logout | apply keeps_handleLogin
      | apply keeps_showUserContent | apply keeps_showAdminContent
      | apply keeps_set_chatInput
      | apply keeps_sendChatMessage | apply keeps_updateChatbotDB
      | apply keeps_convertNCFiles | apply keeps_fire
      | keep_store_with ].
Qed.

Lemma store_ok_run (storage : gmap string string) (now : Z) (es : list Event) :
  store_ok (run (new_FloatChatApp storage now) es).
Proof.
  induction es as [| e es IH] using rev_ind.
  - apply store_ok_new_FloatChatApp.
  - rewrite run_snoc. by apply keeps_handler.
Qed.

(** In every state the page can reach, a transcript that the model reads
    is a well-formed tree: what a chat exchange asks of the transcript
    holds there. *)
Corollary reachable_transcript_well_formed
    (storage : gmap string string) (now : Z) (es : list Event) (r : ref)
    (transcript : list HTML.Node) :
  nodes (run (new_FloatChatApp storage now) es) !! r = Some (Children transcript) →
  HTML.well_formed transcript = true.
Proof.
  intros Hr. pose proof (store_ok_run storage now es) as Hok.
  unfold store_ok in Hok. rewrite Forall_lookup in Hok. exact (Hok r _ Hr).
Qed.

(** * Further properties of the session code *)

(** ** [logout] *)

Lemma showPage_home (s : State) :
  showPage "home" s = (Return tt, set_mainContent HomePage (set_currentPage "home" s)).
Proof. reflexivity. Qed.

Lemma logout_state (s : State) :
  logout s =
    (Return tt,
     set_mainContent HomePage
       (set_currentPage "home"
          (set_logoutBtnHidden true
             (set_loginBtnHidden false
                (set_localStorage (delete authToken (localStorage s))
                   (set_currentUser None s)))))).
Proof. reflexivity. Qed.

Lemma checkAuthStatus_no_token (s : State) :
  localStorage s !! authToken = None → checkAuthStatus s = (Return tt, s).
Proof. intros H. unfold checkAuthStatus. run_state. by rewrite H. Qed.

(** X1: [logout], from any state, ends normally with no session, no stored
    credential (so the next load of the page finds none), the login button
    shown and the logout button hidden, and the home page displayed. It
    leaves the chat history and the pending timers as they are. *)
Theorem logout_ends_session (s : State) :
  (logout s).1 = Return tt ∧
  currentUser (exec logout s) = None ∧
  localStorage (exec logout s) !! authToken = None ∧
  loginBtnHidden (exec logout s) = false ∧
  logoutBtnHidden (exec logout s) = true ∧
  mainContent (exec logout s) = HomePage ∧
  currentPage (exec logout s) = "home" ∧
  chatHistory (exec logout s) = chatHistory s ∧
  timers (exec logout s) = timers s ∧
  (∀ now, currentUser (new_FloatChatApp (localStorage (exec logout s)) now) = None).
Proof.
  unfold exec. rewrite logout_state. cbn.
  repeat (split; [first [reflexivity | apply lookup_delete_eq] |]).
  intros now. rewrite new_FloatChatApp_eq. unfold exec.
  rewrite checkAuthStatus_no_token; [reflexivity | apply lookup_delete_eq].
Qed.

(** ** [checkAuthStatus] on stored tokens *)

(** X2: a stored, non-empty token that cannot be decoded - [atob] or
    [JSON.parse] throws - or that decodes to [null] is removed from storage
    without any error reaching the caller, and nothing else changes. *)
Theorem malformed_token_removed (s : State) (token : string) :
  localStorage s !! authToken = Some token →
  token ≠ "" →
  (∃ e, decode_token token s = (Throw e, s)) ∨
  decode_token token s = (Return JNull, s) →
  checkAuthStatus s =
    (Return tt, set_localStorage (delete authToken (localStorage s)) s).
Proof.
  intros Hget Hne [[e Hdec] | Hnull].
  - exact (checkAuthStatus_undecodable s token e Hget Hne Hdec).
  - unfold checkAuthStatus. run_state. rewrite Hget.
    destruct (decide _) as [| _]; [done |].
    unfold try_catch. run_state. rewrite Hnull. reflexivity.
Qed.

(** A page about to run [init] with the given token in storage. *)
Definition opened_with (token : string) : State :=
  set_mainContent HomePage
    (set_currentPage "home" (constructed {[ authToken := token ]} 1700000000123)).

Lemma malformed_token_removed_witness :
  checkAuthStatus (opened_with "bnVsbA.bnVsbA") =
    (Return tt,
     set_localStorage (delete authToken (localStorage (opened_with "bnVsbA.bnVsbA")))
       (opened_with "bnVsbA.bnVsbA")).
Proof.
  apply (malformed_token_removed (opened_with "bnVsbA.bnVsbA") "bnVsbA.bnVsbA").
  - reflexivity.
  - discriminate.
  - right. reflexivity.
Defined.






Definition dot_free (s : string) : Prop := "."%char ∉ String.list_ascii_of_string s.

Lemma split_first_segment (a rest : string) :
  dot_free a → JS.split "."%char (a +:+ "." +:+ rest) = a :: JS.split "."%char rest.
Proof.
  unfold dot_free. induction a as [| c r IH]; [reflexivity |].
  intros Hnot. apply not_elem_of_cons in Hnot as [Hne Hr].
  change (String c r +:+ "." +:+ rest) with (String c (r +:+ "." +:+ rest)).
  cbn [JS.split]. destruct (Ascii.eqb_spec c "."%char) as [-> | _]; [done |].
  by rewrite (IH Hr).
Qed.

Lemma second_segment (a p : string) :
  dot_free a → dot_free p → JS.split "."%char (a +:+ "." +:+ p) !! 1%nat = Some p.
Proof.
  intros Ha Hp. rewrite (split_first_segment a p Ha).
  by rewrite (split_without_separator _ _ Hp).
Qed.

Lemma second_segment_signed (a p sig : string) :
  dot_free a → dot_free p →
  JS.split "."%char (a +:+ "." +:+ p +:+ "." +:+ sig) !! 1%nat = Some p.
Proof.
  intros Ha Hp. rewrite (split_first_segment a _ Ha).
  by rewrite (split_first_segment p sig Hp).
Qed.

(** X4: of a dotted token only the second segment is decoded. Two tokens
    with the same second segment decode alike whatever their first segment
    is, and whether or not a third segment (a signature) follows. *)
Theorem token_decoding_ignores_other_segments (a b p sig : string) (s : State) :
  dot_free a → dot_free b → dot_free p →
  decode_token (a +:+ "." +:+ p +:+ "." +:+ sig) s = decode_token (b +:+ "." +:+ p) s.
Proof.
  intros Ha Hb Hp. unfold decode_token.
  by rewrite (second_segment_signed a p sig Ha Hp), (second_segment b p Hb Hp).
Qed.

Lemma dot_free_sample (s : string) :
  forallb (λ c, negb (Ascii.eqb c "."%char)) (String.list_ascii_of_string s) = true →
  dot_free s.
Proof.
  unfold dot_free. induction (String.list_ascii_of_string s) as [| c r IH]; cbn.
  - intros _. apply not_elem_of_nil.
  - intros H. apply andb_prop in H as [Hc Hr].
    apply not_elem_of_cons. split; [| by apply IH].
    intros <-. by rewrite Ascii.eqb_refl in Hc.
Qed.

Lemma token_decoding_ignores_other_segments_witness :
  decode_token ("eyJhbGciOiJIUzI1NiJ9" +:+ "." +:+ "eyJleHAiOjB9" +:+ "." +:+ "c2ln") fresh =
  decode_token ("x" +:+ "." +:+ "eyJleHAiOjB9") fresh.
Proof.
  apply (token_decoding_ignores_other_segments
           "eyJhbGciOiJIUzI1NiJ9" "x" "eyJleHAiOjB9" "c2ln" fresh);
    apply dot_free_sample; reflexivity.
Defined.

(** ** Pages without a session *)

(** X5: [showPage] never looks at the session. From any state, also one
    with no current user, [showPage('admin')] shows the administrator's
    dashboard with the chatbot-database form and [showPage('user')] the user
    dashboard with a new chat, and neither changes the current user. *)
Theorem dashboards_shown_without_session (s : State) :
  (showPage "admin" s).1 = Return tt ∧
  mainContent (exec (showPage "admin") s) =
    AdminDashboard (Some (ChatbotDB "" None)) ∧
  currentUser (exec (showPage "admin") s) = currentUser s ∧
  (showPage "user" s).1 = Return tt ∧
  mainContent (exec (showPage "user") s) =
    UserDashboard (Some (ChatInterface (length (nodes s)) "")) ∧
  nodes (exec (showPage "user") s) !! length (nodes s) =
    Some (parsed greeting_markup) ∧
  currentUser (exec (showPage "user") s) = currentUser s.
Proof.
  unfold exec. rewrite showPage_admin, showPage_user. cbn.
  repeat (split; [reflexivity |]). split; [| reflexivity].
  by rewrite lookup_app_r, Nat.sub_diag.
Qed.

Example admin_dashboard_for_anyone :
  currentUser fresh = None ∧
  mainContent (run fresh [ShowPage "admin"; TypeTrainingData "[]"; UpdateChatbotDB]) =
    AdminDashboard (Some (ChatbotDB "[]" (Some UpdatedSuccessfully))).
Proof. split; reflexivity. Qed.

(** X6: the profile needs a session. With the user dashboard shown and no
    current user, [showUserContent('profile')] throws a TypeError and the
    view stays as it is; with a current user it shows that object's [name],
    [username] and [role] (undefined where the object has none) and the
    number of entries in the chat history. *)
Theorem profile_needs_session (s : State) (c : option UserContent) :
  mainContent s = UserDashboard c →
  (currentUser s = None →
   showUserContent "profile" s = (Throw TypeError, s)) ∧
  (∀ fields, currentUser s = Some (JObj fields) →
   showUserContent "profile" s =
     (Return tt,
      set_mainContent
        (UserDashboard
           (Some (UserProfile (JSON.lookup_field (units "name") fields)
                    (JSON.lookup_field (units "username") fields)
                    (JSON.lookup_field (units "role") fields)
                    (length (chatHistory s))))) s)).
Proof.
  intros Hmain. split.
  - intros Huser. unfold showUserContent, renderUserProfile. run_state.
    repeat (case_decide; [discriminate |]). case_decide; [| done].
    run_state. by rewrite Huser.
  - intros fields Huser.
    unfold showUserContent, renderUserProfile, set_user_content. run_state.
    repeat (case_decide; [discriminate |]). case_decide; [| done].
    run_state. rewrite Huser. cbn [get_property]. run_state.
    rewrite Hmain. reflexivity.
Qed.

Lemma profile_needs_session_witness :
  (currentUser (exec (showPage "user") fresh) = None →
   showUserContent "profile" (exec (showPage "user") fresh) =
     (Throw TypeError, exec (showPage "user") fresh)) ∧
  (∀ fields, currentUser (exec (showPage "user") fresh) = Some (JObj fields) →
   showUserContent "profile" (exec (showPage "user") fresh) =
     (Return tt,
      set_mainContent
        (UserDashboard
           (Some (UserProfile (JSON.lookup_field (units "name") fields)
                    (JSON.lookup_field (units "username") fields)
                    (JSON.lookup_field (units "role") fields)
                    (length (chatHistory (exec (showPage "user") fresh))))))
        (exec (showPage "user") fresh))).
Proof.
  apply (profile_needs_session (exec (showPage "user") fresh)
           (Some (ChatInterface 0 ""))).
  reflexivity.
Defined.

Example profile_after_login :
  mainContent (step chatting (ShowUserContent "profile")) =
    UserDashboard
      (Some (UserProfile (Some (JStr (units "Marine Researcher")))
               (Some (JStr (units "user"))) (Some (JStr (units "user"))) 0)).
Proof. reflexivity. Qed.

(** ** Methods called while their elements are not in the document *)

Definition no_dashboard (s : State) : Prop :=
  match mainContent s with
  | UserDashboard _ | AdminDashboard _ => False
  | _ => True
  end.

(** X7: on a page that shows neither dashboard and whose login form has
    not been rendered, the methods that read or write an element of a
    dashboard or of the form throw a TypeError before they change anything:
    [handleLogin], [sendChatMessage], [updateChatbotDB], [convertNCFiles],
    and [showUserContent] and [showAdminContent] for each of their cases. *)
Theorem missing_elements_throw (s : State) :
  no_dashboard s →
  modalBody s = None →
  handleLogin s = (Throw TypeError, s) ∧
  sendChatMessage s = (Throw TypeError, s) ∧
  updateChatbotDB s = (Throw TypeError, s) ∧
  convertNCFiles s = (Throw TypeError, s) ∧
  (∀ type, type ∈ ["chat"; "argo-map"; "ocean-map"] →
           showUserContent type s = (Throw TypeError, s)) ∧
  (∀ type, type ∈ ["chatbot-db"; "nc-converter"; "system"; "users"] →
           showAdminContent type s = (Throw TypeError, s)).
Proof.
  intros Hno Hform. unfold no_dashboard in Hno.
  split; [unfold handleLogin; run_state; by rewrite Hform |].
  split; [unfold sendChatMessage; run_state; by destruct (mainContent s) |].
  split; [unfold updateChatbotDB; run_state; by destruct (mainContent s) |].
  split; [unfold convertNCFiles; run_state; by destruct (mainContent s) |].
  split.
  - intros type Hin. unfold showUserContent, set_user_content. run_state.
    repeat (apply elem_of_cons in Hin as [-> | Hin];
            [repeat (case_decide; try discriminate); run_state;
             by destruct (mainContent s) |]).
    by apply elem_of_nil in Hin.
  - intros type Hin. unfold showAdminContent, set_admin_content. run_state.
    repeat (apply elem_of_cons in Hin as [-> | Hin];
            [repeat (case_decide; try discriminate); run_state;
             by destruct (mainContent s) |]).
    by apply elem_of_nil in Hin.
Qed.

Lemma missing_elements_throw_witness :
  handleLogin fresh = (Throw TypeError, fresh) ∧
  sendChatMessage fresh = (Throw TypeError, fresh) ∧
  updateChatbotDB fresh = (Throw TypeError, fresh) ∧
  convertNCFiles fresh = (Throw TypeError, fresh) ∧
  (∀ type, type ∈ ["chat"; "argo-map"; "ocean-map"] →
           showUserContent type fresh = (Throw TypeError, fresh)) ∧
  (∀ type, type ∈ ["chatbot-db"; "nc-converter"; "system"; "users"] →
           showAdminContent type fresh = (Throw TypeError, fresh)).
Proof.
  apply (missing_elements_throw fresh).
  - exact I.
  - reflexivity.
Defined.

(** ** What the events leave alone *)

Section EventsPreserve.

Context {X : Type} (proj : State → X).

(** A part of the state that no setter touches but those of the session:
    [set_currentUser], [set_localStorage] and the two navigation buttons. *)
Hypothesis view_currentPage : ∀ v s, proj (set_currentPage v s) = proj s.
Hypothesis view_chatHistory : ∀ v s, proj (set_chatHistory v s) = proj s.
Hypothesis view_clock : ∀ v s, proj (set_clock v s) = proj s.
Hypothesis view_mainContent : ∀ v s, proj (set_mainContent v s) = proj s.
Hypothesis view_authModalHidden : ∀ v s, proj (set_authModalHidden v s) = proj s.
Hypothesis view_modalBody : ∀ v s, proj (set_modalBody v s) = proj s.
Hypothesis view_nodes : ∀ v s, proj (set_nodes v s) = proj s.
Hypothesis view_timers : ∀ v s, proj (set_timers v s) = proj s.
Hypothesis view_alerts : ∀ v s, proj (set_alerts v s) = proj s.

Lemma view_sendChatMessage : preserves proj sendChatMessage.
Proof.
  unfold sendChatMessage, append_html, setTimeout, set_chatInput.
  repeat first
    [ apply preserves_modify; intros ?;
      first [ apply view_nodes | apply view_timers | apply view_chatHistory
            | apply view_mainContent ]
    | frame_step ].
Qed.

(** The events that start, end or restore a session. *)
Definition session_event (e : Event) : bool :=
  match e with
  | SubmitLogin | Logout | Reload => true
  | _ => false
  end.

Lemma view_handler (e : Event) :
  session_event e = false → preserves proj (handler e).
Proof.
  intros He. destruct e; try discriminate He; cbn [handler].
  - apply preserves_modify. intros s. apply view_clock.
  - apply preserves_showPage; auto.
  - apply preserves_hideModal; auto.
  - apply preserves_type_username; auto.
  - apply preserves_type_password; auto.
  - apply preserves_showUserContent; auto.
  - apply preserves_showAdminContent; auto.
  - apply preserves_try_catch; [| apply preserves_ret].
    apply preserves_set_chatInput; auto.
  - apply view_sendChatMessage.
  - apply preserves_type_trainingData; auto.
  - apply preserves_updateChatbotDB; auto.
  - apply preserves_choose_files; auto.
  - apply preserves_convertNCFiles; auto.
  - apply preserves_fire; auto.
Qed.

End EventsPreserve.

(** X8: a session does not lapse while the page is open. Only a login, a
    logout or a reload changes the current user or the stored credential;
    every other event - time passing by any amount among them - leaves
    both as they are. *)
Theorem session_kept_between_session_events (s : State) (e : Event) :
  session_event e = false →
  currentUser (step s e) = currentUser s ∧
  localStorage (step s e) = localStorage s.
Proof.
  intros He. unfold step, exec. split.
  - apply (view_handler currentUser); (done || intros; reflexivity).
  - apply (view_handler localStorage); (done || intros; reflexivity).
Qed.

Lemma session_kept_between_session_events_witness :
  currentUser (step chatting (Elapse 31536000000)) = currentUser chatting ∧
  localStorage (step chatting (Elapse 31536000000)) = localStorage chatting.
Proof.
  apply (session_kept_between_session_events chatting (Elapse 31536000000)).
  reflexivity.
Defined.

(** ** Navigation and session *)

(** The buttons show the session: login hidden and logout shown exactly
    when there is a current user. *)
Definition nav_follows_session (s : State) : Prop :=
  loginBtnHidden s = truthy (currentUser s) ∧
  logoutBtnHidden s = negb (truthy (currentUser s)).

Definition nav_view (s : State) : option json * bool * bool :=
  (currentUser s, loginBtnHidden s, logoutBtnHidden s).

Lemma nav_follows_view (s s' : State) :
  nav_view s' = nav_view s → nav_follows_session s → nav_follows_session s'.
Proof. unfold nav_view, nav_follows_session. intros [= -> -> ->]. done. Qed.

Lemma handleLogin_cases (s : State) :
  handleLogin s = (Throw TypeError, s) ∨
  handleLogin s = (Return tt, rejected s) ∨
  ∃ form a,
    modalBody s = Some form ∧
    handleLogin s = showPage (role a) (signed_in (username_value form) a s).
Proof.
  destruct (modalBody s) as [form |] eqn:Hform.
  - destruct (demoUsers_get (username_value form)) as [a | |] eqn:Hget.
    + destruct (decide (password a = password_value form)) as [Hpw | Hpw].
      * right. right. exists form, a. split; [done |].
        by apply handleLogin_accepts.
      * right. left. apply (handleLogin_rejects s form Hform).
        intros a' Ha'. rewrite Hget in Ha'. by injection Ha' as <-.
    + right. left. apply (handleLogin_rejects s form Hform).
      intros a' Ha'. rewrite Hget in Ha'. discriminate Ha'.
    + right. left. apply (handleLogin_rejects s form Hform).
      intros a' Ha'. rewrite Hget in Ha'. discriminate Ha'.
  - left. unfold handleLogin. run_state. by rewrite Hform.
Qed.

(** X9: the methods keep the navigation in step with the session. If the
    login and logout buttons show whether there is a current user, they
    still do after any event on the loaded page: navigation, a login that
    succeeds or fails, logout, chat, the administrator's actions, timers. *)
Theorem navigation_follows_session (s : State) (e : Event) :
  e ≠ Reload →
  nav_follows_session s →
  nav_follows_session (step s e).
Proof.
  intros Hne Hs. destruct (session_event e) eqn:He.
  - destruct e; try discriminate He; [done | |]; unfold step, exec; cbn [handler].
    + rewrite logout_state. by split.
    + destruct (handleLogin_cases s) as [-> | [-> | (form & a & _ & ->)]];
        [exact Hs | exact Hs |].
      eapply nav_follows_view; [apply (preserves_showPage nav_view);
                                intros; reflexivity |].
      by split.
  - eapply nav_follows_view; [| exact Hs]. unfold step, exec.
    apply (view_handler nav_view); (done || intros; reflexivity).
Qed.

Lemma navigation_follows_session_witness :
  nav_follows_session (step at_login SubmitLogin).
Proof.
  apply (navigation_follows_session at_login SubmitLogin).
  - discriminate.
  - split; reflexivity.
Defined.

(** ** The chat history *)

Lemma chatHistory_kept (s : State) (e : Event) :
  e ≠ Reload → e ≠ SendChatMessage → chatHistory (step s e) = chatHistory s.
Proof.
  intros Hr Hs. unfold step, exec.
  destruct e; try done; cbn [handler];
    first [ apply preserves_showPage | apply preserves_hideModal
          | apply preserves_logout | apply preserves_type_username
          | apply preserves_type_password | apply preserves_handleLogin
          | apply preserves_showUserContent | apply preserves_showAdminContent
          | apply preserves_type_trainingData | apply preserves_updateChatbotDB
          | apply preserves_choose_files | apply preserves_convertNCFiles
          | apply preserves_fire
          | apply preserves_try_catch;
              [apply preserves_set_chatInput | apply preserves_ret] ];
    intros; reflexivity.
Qed.

(** X10: the chat history is append-only while the page is open. An event
    other than a reload keeps every entry and adds at most one; only an
    accepted chat message adds one, so the history outlasts logout and a
    later login. *)
Theorem chatHistory_append_only (s : State) (e : Event) :
  e ≠ Reload →
  ∃ new,
    chatHistory (step s e) = chatHistory s ++ new ∧
    (length new ≤ 1)%nat ∧
    (e ≠ SendChatMessage → new = []).
Proof.
  intros Hr.
  assert (e = SendChatMessage ∨ e ≠ SendChatMessage) as [-> | Hs]
    by (destruct e; (by left) || (by right)).
  - unfold step. cbn [handler].
    destruct (sendChatMessage_cases s) as [-> | (r & v & _ & _ & ->)].
    + exists []. rewrite app_nil_r. split; [done |]. split; [cbn; lia | done].
    + eexists. cbn. split; [reflexivity |]. split; [cbn; lia | done].
  - exists []. rewrite app_nil_r. split; [by apply chatHistory_kept |].
    split; [cbn; lia | done].
Qed.

Lemma chatHistory_append_only_witness :
  ∃ new,
    chatHistory (step asking SendChatMessage) = chatHistory asking ++ new ∧
    (length new ≤ 1)%nat ∧
    (SendChatMessage ≠ SendChatMessage → new = []).
Proof.
  apply (chatHistory_append_only asking SendChatMessage). discriminate.
Defined.

Example chatHistory_outlasts_logout :
  chatHistory
    (run asking [SendChatMessage; Logout; ShowPage "login"; TypeUsername "admin";
                 TypePassword "admin123"; SubmitLogin]) =
    [{| user := "hello float"; bot := float_paragraph; timestamp := 1700000000123 |}].
Proof. reflexivity. Qed.

(** ** The other keys of the local storage *)

Definition stored (k : string) (s : State) : option string := localStorage s !! k.

Lemma stored_removeItem (k : string) :
  k ≠ authToken → preserves (stored k) (removeItem authToken).
Proof.
  intros Hk s. unfold stored, removeItem. cbn. by apply lookup_delete_ne.
Qed.

Lemma stored_checkAuthStatus (k : string) :
  k ≠ authToken → preserves (stored k) checkAuthStatus.
Proof.
  intros Hk. unfold checkAuthStatus.
  repeat first
    [ by apply stored_removeItem
    | apply preserves_decode_token
    | apply preserves_get_property
    | apply preserves_updateNavigation; intros; reflexivity
    | frame_step ].
Qed.

Lemma stored_new_FloatChatApp (k : string) (storage : gmap string string) (now : Z) :
  k ≠ authToken → stored k (new_FloatChatApp storage now) = storage !! k.
Proof.
  intros Hk. rewrite new_FloatChatApp_eq. unfold exec.
  by rewrite (stored_checkAuthStatus k Hk).
Qed.

(** X11: the script owns one key of the local storage. Whatever the event -
    login, logout and reload included - the value stored under any key
    other than [authToken] is what it was. *)
Theorem other_storage_keys_untouched (s : State) (e : Event) (k : string) :
  k ≠ authToken →
  localStorage (step s e) !! k = localStorage s !! k.
Proof.
  intros Hk. destruct (session_event e) eqn:He.
  - destruct e; try discriminate He; unfold step, exec; cbn [handler].
    + by apply (stored_new_FloatChatApp k).
    + rewrite logout_state. cbn. by apply lookup_delete_ne.
    + destruct (handleLogin_cases s) as [-> | [-> | (form & a & _ & ->)]];
        [reflexivity | reflexivity |].
      rewrite (preserves_showPage localStorage); [| intros; reflexivity ..].
      cbn. by apply lookup_insert_ne.
  - unfold step, exec. f_equal.
    apply (view_handler localStorage); (done || intros; reflexivity).
Qed.

Lemma other_storage_keys_untouched_witness :
  localStorage (step (new_FloatChatApp {[ "theme" := "dark" ]} 0) Logout) !! "theme" =
    localStorage (new_FloatChatApp {[ "theme" := "dark" ]} 0) !! "theme".
Proof.
  apply (other_storage_keys_untouched
           (new_FloatChatApp {[ "theme" := "dark" ]} 0) Logout "theme").
  discriminate.
Defined.

(** ** File conversion *)

Definition conversion_timer (s : State) (st rs : ref) (files : list string) : Timer :=
  {| due := clock s + 2000; callback := FinishConversion st rs files |}.

(** The rows of the results block: each file name with its converted name. *)
Definition converted_rows (files : list string) : list (string * string) :=
  (λ f, (f, replace_first ".nc" ".csv" f)) <$> files.

Lemma alter_constant {A} (l : list A) (i : nat) (y : A) :
  alter (λ _, y) i l = <[i := y]> l.
Proof.
  revert i. induction l as [| x l IH]; intros [| i]; cbn; try reflexivity.
  by rewrite <- IH.
Qed.

Lemma set_html_state (r : ref) (c : Content) (s : State) :
  set_html r c s = (Return tt, set_nodes (<[r := c]> (nodes s)) s).
Proof. unfold set_html, modify. by rewrite alter_constant. Qed.

Lemma fire_conversion (s : State) (i : nat) (t : Z) (st rs : ref) (files : list string) :
  timers s !! i = Some {| due := t; callback := FinishConversion st rs files |} →
  t ≤ clock s →
  fire i s =
    (Return tt,
     set_nodes (<[rs := ResultsBlock (converted_rows files)]>
                  (<[st := StatusDiv ConversionCompleted]> (nodes s)))
       (set_timers (delete i (timers s)) s)).
Proof.
  intros Hi Hdue. unfold fire. run_state. rewrite Hi. cbn [due callback].
  destruct (decide _) as [_ | Hlt]; [| done].
  run_state. unfold run_callback, finishConversion. run_state.
  rewrite set_html_state. run_state. by rewrite set_html_state.
Qed.

(** X12: [convertNCFiles] with the converter shown. With no file chosen it
    shows the request to select files and schedules nothing. With files it
    shows the progress line and schedules one callback; fired before two
    seconds have passed the callback does nothing, fired after them it
    shows the completion line and one result row per file, with the name
    and the converted name, and is no longer pending. *)
Theorem conversion_run (s : State) (files : list string) (st rs : ref) :
  mainContent s = AdminDashboard (Some (NCConverter files st rs)) →
  (files = [] →
   convertNCFiles s =
     (Return tt, set_nodes (<[st := StatusDiv SelectFiles]> (nodes s)) s)) ∧
  (files ≠ [] →
   let s1 := exec convertNCFiles s in
   nodes s1 = <[st := StatusDiv Converting]> (nodes s) ∧
   timers s1 = timers s ++ [conversion_timer s st rs files] ∧
   (∀ ms, Z.of_N ms < 2000 →
      step (step s1 (Elapse ms)) (Fire (length (timers s))) = step s1 (Elapse ms)) ∧
   (∀ ms, 2000 ≤ Z.of_N ms →
      let s2 := step (step s1 (Elapse ms)) (Fire (length (timers s))) in
      nodes s2 =
        <[rs := ResultsBlock (converted_rows files)]>
          (<[st := StatusDiv ConversionCompleted]> (nodes s)) ∧
      timers s2 = timers s)).
Proof.
  intros Hmain. split.
  - intros ->. unfold convertNCFiles. run_state. rewrite Hmain.
    cbn [length]. destruct (decide _) as [_ | Hne]; [| done].
    apply set_html_state.
  - intros Hfiles s1.
    assert (Hs1 : s1 =
              set_timers (timers s ++ [conversion_timer s st rs files])
                (set_nodes (<[st := StatusDiv Converting]> (nodes s)) s)).
    { unfold s1, exec, convertNCFiles, setTimeout. run_state.
      rewrite Hmain. destruct (decide _) as [Hlen | _].
      - by destruct files.
      - run_state. rewrite set_html_state. reflexivity. }
    assert (Hpending : ∀ ms, timers (step s1 (Elapse ms)) !! length (timers s) =
                             Some (conversion_timer s st rs files)).
    { intros ms. rewrite Hs1. cbn. by rewrite lookup_app_r, Nat.sub_diag. }
    split; [by rewrite Hs1 |]. split; [by rewrite Hs1 |]. split.
    + intros ms Hms. unfold step at 1. unfold exec. cbn [handler].
      rewrite (fire_early _ _ _ (Hpending ms)); [reflexivity |].
      rewrite Hs1. cbn. lia.
    + intros ms Hms s2.
      assert (Hs2 : s2 =
                set_nodes (<[rs := ResultsBlock (converted_rows files)]>
                             (<[st := StatusDiv ConversionCompleted]>
                                (nodes (step s1 (Elapse ms)))))
                  (set_timers (delete (length (timers s)) (timers (step s1 (Elapse ms))))
                     (step s1 (Elapse ms)))).
      { unfold s2, step at 1. unfold exec. cbn [handler].
        rewrite (fire_conversion _ _ _ _ _ _ (Hpending ms)); [reflexivity |].
        rewrite Hs1. cbn. lia. }
      rewrite Hs2, Hs1. cbn. split.
      * by rewrite list_insert_insert_eq.
      * apply delete_last.
Qed.

(** The converter with two files chosen. *)
Definition converting : State :=
  run administering [ShowAdminContent "nc-converter"; ChooseFiles ["a.nc"; "b.nc.nc"]].

Lemma conversion_run_witness :
  (["a.nc"; "b.nc.nc"] = [] →
   convertNCFiles converting =
     (Return tt,
      set_nodes (<[0%nat := StatusDiv SelectFiles]> (nodes converting)) converting)) ∧
  (["a.nc"; "b.nc.nc"] ≠ [] →
   let s1 := exec convertNCFiles converting in
   nodes s1 = <[0%nat := StatusDiv Converting]> (nodes converting) ∧
   timers s1 =
     timers converting ++ [conversion_timer converting 0 1 ["a.nc"; "b.nc.nc"]] ∧
   (∀ ms, Z.of_N ms < 2000 →
      step (step s1 (Elapse ms)) (Fire (length (timers converting))) =
        step s1 (Elapse ms)) ∧
   (∀ ms, 2000 ≤ Z.of_N ms →
      let s2 := step (step s1 (Elapse ms)) (Fire (length (timers converting))) in
      nodes s2 =
        <[1%nat := ResultsBlock (converted_rows ["a.nc"; "b.nc.nc"])]>
          (<[0%nat := StatusDiv ConversionCompleted]> (nodes converting)) ∧
      timers s2 = timers converting)).
Proof.
  apply (conversion_run converting ["a.nc"; "b.nc.nc"] 0%nat 1%nat).
  reflexivity.
Defined.

Example conversion_shown :
  nodes (run converting [ConvertNCFiles; Elapse 2000; Fire 0]) =
    [StatusDiv ConversionCompleted;
     ResultsBlock [("a.nc", "a.csv"); ("b.nc.nc", "b.csv.nc")]].
Proof. reflexivity. Qed.

Lemma substring_all (s : string) : String.substring 0 (String.length s) s = s.
Proof. induction s as [| c r IH]; cbn; [reflexivity | by rewrite IH]. Qed.

Lemma replace_first_unfold (pattern replacement s : string) :
  replace_first pattern replacement s =
    if String.prefix pattern s
    then replacement +:+ String.substring (String.length pattern)
                           (String.length s - String.length pattern) s
    else match s with
         | EmptyString => EmptyString
         | String c r => String c (replace_first pattern replacement r)
         end.
Proof. by destruct s. Qed.

Lemma replace_first_here (rest : string) :
  replace_first ".nc" ".csv" (".nc" +:+ rest) = ".csv" +:+ rest.
Proof.
  rewrite replace_first_unfold.
  assert (String.prefix ".nc" (".nc" +:+ rest) = true) as -> by (by destruct rest).
  change (String.substring (String.length ".nc")
            (String.length (".nc" +:+ rest) - String.length ".nc") (".nc" +:+ rest))
    with (String.substring 0 (String.length rest - 0) rest).
  by rewrite Nat.sub_0_r, substring_all.
Qed.

Lemma replace_first_skips (c : ascii) (r : string) :
  c ≠ "."%char →
  replace_first ".nc" ".csv" (String c r) = String c (replace_first ".nc" ".csv" r).
Proof.
  intros Hc. rewrite replace_first_unfold. cbn [String.prefix].
  destruct (Ascii.ascii_dec "."%char c) as [<- | _]; [done |].
  reflexivity.
Qed.

(** X13: the converted name is the file name with its first [.nc] replaced
    by [.csv], wherever that is: after a part without a dot, [.nc] becomes
    [.csv] and what follows - a second [.nc] too - is kept. A name without
    a dot is shown unchanged. *)
Theorem converted_name_replaces_first (base rest : string) :
  dot_free base →
  replace_first ".nc" ".csv" (base +:+ ".nc" +:+ rest) = base +:+ ".csv" +:+ rest ∧
  replace_first ".nc" ".csv" base = base.
Proof.
  unfold dot_free. induction base as [| c r IH].
  - intros _. split; [apply replace_first_here | reflexivity].
  - intros Hnot. apply not_elem_of_cons in Hnot as [Hne Hr].
    destruct (IH Hr) as [IH1 IH2].
    change (String c r +:+ ".nc" +:+ rest) with (String c (r +:+ ".nc" +:+ rest)).
    rewrite !replace_first_skips by done. by rewrite IH1, IH2.
Qed.

Lemma converted_name_replaces_first_witness :
  replace_first ".nc" ".csv" ("profile_01" +:+ ".nc" +:+ ".nc") =
    "profile_01" +:+ ".csv" +:+ ".nc" ∧
  replace_first ".nc" ".csv" "profile_01" = "profile_01".
Proof.
  apply (converted_name_replaces_first "profile_01" ".nc").
  apply dot_free_sample. reflexivity.
Defined.

(** ** A reply and a chat that was rendered again *)




(** ** Two messages before the first reply *)



(** ** The map *)

Lemma fire_initializeMap (s : State) (i : nat) (t : Z) (n : nat) (fl : list ArgoFloat) :
  timers s !! i = Some {| due := t; callback := InitializeMap |} →
  t ≤ clock s →
  mainContent s = UserDashboard (Some (ArgoMap n None fl)) →
  fire i s =
    (Return tt,
     set_mainContent
       (UserDashboard
          (Some (ArgoMap n (Some (marker_of <$> argoFloats s)) (argoFloats s))))
       (set_timers (delete i (timers s)) s)).
Proof.
  intros Hi Hdue Hmain. unfold fire. run_state. rewrite Hi. cbn [due callback].
  destruct (decide _) as [_ | Hlt]; [| done].
  run_state. unfold run_callback, initializeMap, set_user_content. run_state.
  rewrite Hmain. run_state. rewrite Hmain. reflexivity.
Qed.

(** X16: the float map. With the user dashboard shown,
    [showUserContent('argo-map')] followed, a tenth of a second or more
    later, by its timer gives a map with one marker per float of the list,
    in the order of the list, at the float's latitude and longitude, green
    for a float whose status is active and orange for any other; the header
    counts all floats and the list under the map has all of them. *)
Theorem map_marks_every_float (s : State) (c : option UserContent) (ms : N) :
  mainContent s = UserDashboard c →
  100 ≤ Z.of_N ms →
  mainContent (run s [ShowUserContent "argo-map"; Elapse ms; Fire (length (timers s))]) =
    UserDashboard
      (Some (ArgoMap (length (argoFloats s))
               (Some (marker_of <$> argoFloats s)) (argoFloats s))) ∧
  (∀ f, position (marker_of f) = (lat f, lng f) ∧ popup (marker_of f) = f ∧
        (color (marker_of f) = "green" ↔ status f = "active") ∧
        (color (marker_of f) = "orange" ↔ status f ≠ "active")).
Proof.
  intros Hmain Hms. split.
  - assert (H1 : step s (ShowUserContent "argo-map") =
                 set_timers (timers s ++ [{| due := clock s + 100; callback := InitializeMap |}])
                   (set_mainContent
                      (UserDashboard (Some (ArgoMap (length (argoFloats s)) None []))) s)).
    { unfold step, exec. cbn [handler].
      unfold showUserContent, set_user_content, setTimeout. run_state.
      case_decide; [discriminate |]. case_decide; [| done].
      run_state. rewrite Hmain. reflexivity. }
    unfold run. cbn [foldl]. rewrite H1.
    change (step ?x (Elapse ms)) with (set_clock (clock x + Z.of_N ms) x).
    unfold step, exec. cbn [handler].
    erewrite fire_initializeMap;
      [reflexivity | cbn; by rewrite lookup_app_r, Nat.sub_diag | cbn; lia
      | reflexivity].
  - intros f. unfold marker_of. cbn. split; [done |]. split; [done |].
    destruct (decide (status f = "active")) as [Ha | Ha]; split; split; done.
Qed.

Lemma map_marks_every_float_witness :
  mainContent (run chatting [ShowUserContent "argo-map"; Elapse 100;
                             Fire (length (timers chatting))]) =
    UserDashboard
      (Some (ArgoMap (length (argoFloats chatting))
               (Some (marker_of <$> argoFloats chatting)) (argoFloats chatting))) ∧
  (∀ f, position (marker_of f) = (lat f, lng f) ∧ popup (marker_of f) = f ∧
        (color (marker_of f) = "green" ↔ status f = "active") ∧
        (color (marker_of f) = "orange" ↔ status f ≠ "active")).
Proof.
  apply (map_marks_every_float chatting (Some (ChatInterface 0 "")) 100).
  - reflexivity.
  - reflexivity.
Defined.

Example map_colours :
  color <$> (marker_of <$> initialFloats) =
    ["green"; "green"; "green"; "orange"; "green"].
Proof. reflexivity. Qed.

(** ** Keywords in any letter case *)

Lemma toLowerCase_app (a b : string) :
  JS.toLowerCase (a +:+ b) = JS.toLowerCase a +:+ JS.toLowerCase b.
Proof.
  induction a as [| c r IH]; [reflexivity |].
  change (String c r +:+ b) with (String c (r +:+ b)).
  cbn [JS.toLowerCase]. by rewrite IH.
Qed.

Lemma prefix_app (k b : string) : String.prefix k (k +:+ b) = true.
Proof.
  induction k as [| c r IH]; [by destruct b |].
  change (String c r +:+ b) with (String c (r +:+ b)).
  cbn [String.prefix]. by destruct (Ascii.ascii_dec c c).
Qed.

Lemma includes_unfold (s key : string) :
  JS.includes s key =
    String.prefix key s ||
    match s with
    | EmptyString => false
    | String _ r => JS.includes r key
    end.
Proof. by destruct s. Qed.

Lemma includes_app (a k b : string) : JS.includes (a +:+ k +:+ b) k = true.
Proof.
  induction a as [| c r IH].
  - rewrite includes_unfold.
    change ("" +:+ k +:+ b) with (k +:+ b). by rewrite prefix_app.
  - rewrite includes_unfold.
    change (String c r +:+ k +:+ b) with (String c (r +:+ k +:+ b)).
    cbv iota. rewrite IH. apply orb_true_r.
Qed.

(** X17: the keyword test is made on the lower-cased query and is a
    substring test. A query that has the word temperature anywhere in it -
    in any mix of upper and lower case, inside a longer word, next to other
    keywords - gets the temperature paragraph. *)
Theorem temperature_anywhere_any_case (this : State) (before word after : string) :
  argoFloats this = initialFloats →
  JS.toLowerCase word = "temperature" →
  generateChatResponse this (before +:+ word +:+ after) = temperature_paragraph.
Proof.
  intros Hfloats Hword. rewrite (generateChatResponse_resolve this _ Hfloats).
  unfold resolve. cbn zeta.
  by rewrite !toLowerCase_app, Hword, includes_app.
Qed.

Lemma temperature_anywhere_any_case_witness :
  generateChatResponse fresh
    ("Profile of salinity and sub" +:+ "TempERATURE" +:+ "s near float 2901623") =
    temperature_paragraph.
Proof.
  apply (temperature_anywhere_any_case fresh "Profile of salinity and sub"
           "TempERATURE" "s near float 2901623").
  - reflexivity.
  - reflexivity.
Defined.

(** ** The replies as markup *)

(** X18: whatever the query and whatever the float list, the reply of the
    resolver is not empty and has no [<] and no [&] in it (and no NUL or
    carriage return): interpolated into the markup of the transcript, it is
    read as the text it is. *)
Theorem replies_hold_no_markup (this : State) (query : string) :
  let reply := generateChatResponse this query in
  reply ≠ "" ∧
  plain (units reply) = true ∧
  HTML.inert (units reply) = true.
Proof.
  intros reply. destruct (reply_plain this query) as [Hplain Hne].
  split; [exact Hne |]. split; [exact Hplain | by apply plain_inert].
Qed.

(** ** The system status *)



Example system_status_after_one_message :
  mainContent
    (run (new_FloatChatApp ∅ 1700000000123)
       [ShowPage "user"; TypeChat "salinity"; SendChatMessage;
        ShowPage "admin"; ShowAdminContent "system"]) =
    AdminDashboard (Some (SystemStatus 5 1)).
Proof. reflexivity. Qed.
